(** * gc-controller-web: the controller relay server [server.py]

    A shallow embedding of the WebSocket relay of [server.py]: the client
    registry [connected_clients], the process handle [dolphin_process], the
    input remapping through [INPUT_MAP], the per-connection handler
    [handle_client] and the lifecycle operations [is_dolphin_running],
    [start_dolphin] and [stop_dolphin].

    Python objects are modelled as follows.
    - A [dict] is an association list in insertion order with unique keys
      ([dict_wf]); iteration ([.items()], [.values()]) follows that order.
    - A decoded JSON document is a value of [json].
    - Code that can raise runs in a state-and-exception monad [M] over the
      module globals ([World]); what the operating system, the sockets and
      [uuid] answer is read from an oracle record [Env].
    - Everything observable (log lines, socket sends, subprocess calls) is
      appended to the [trace] of the world.
    - The handlers are [asyncio] coroutines: a handler runs alone between
      two [await]s.  The handling of one frame is taken as one step, and the
      other connections act on the registry while the handler waits for its
      next frame ([Elsewhere]). *)

From Stdlib Require Import List String Ascii ZArith Bool Arith Lia.
Import ListNotations.
Local Open Scope string_scope.
Local Open Scope list_scope.

Set Implicit Arguments.
Set Warnings "-register-all".

(** ** Python strings *)

Module PyStr.

(** [sub in s] on two [str] values. *)
Definition contains (sub s : string) : bool :=
  match String.index 0 sub s with
  | Some _ => true
  | None => false
  end.

(** [str.isspace] on one ASCII character: TAB..CR, FS..US and SPACE. *)
Definition is_space (c : ascii) : bool :=
  let n := nat_of_ascii c in
  ((9 <=? n)%nat && (n <=? 13)%nat) || ((28 <=? n)%nat && (n <=? 32)%nat).

Fixpoint lstrip (s : string) : string :=
  match s with
  | EmptyString => EmptyString
  | String c r => if is_space c then lstrip r else s
  end.

Definition reverse (s : string) : string :=
  string_of_list_ascii (rev (list_ascii_of_string s)).

Definition rstrip (s : string) : string := reverse (lstrip (reverse s)).

(** [s.strip()] *)
Definition strip (s : string) : string := rstrip (lstrip s).

Definition upper_char (c : ascii) : ascii :=
  let n := nat_of_ascii c in
  if ((97 <=? n)%nat && (n <=? 122)%nat) then ascii_of_nat (n - 32) else c.

(** [s.upper()] on ASCII text. *)
Fixpoint upper (s : string) : string :=
  match s with
  | EmptyString => EmptyString
  | String c r => String (upper_char c) (upper r)
  end.

End PyStr.

(** ** Python dictionaries with string keys *)

Section PyDict.

Variable V : Type.

Definition dict := list (string * V).

Definition dict_keys (d : dict) : list string := map fst d.
Definition dict_values (d : dict) : list V := map snd d.
Definition dict_items (d : dict) : list (string * V) := d.
Definition dict_len (d : dict) : nat := List.length d.

(** The representation invariant of a [dict]: no key occurs twice. *)
Definition dict_wf (d : dict) : Prop := NoDup (dict_keys d).

(** [d.get(k)] *)
Fixpoint dict_get (k : string) (d : dict) : option V :=
  match d with
  | [] => None
  | (k', v) :: r => if String.eqb k k' then Some v else dict_get k r
  end.

(** [k in d] *)
Definition dict_mem (k : string) (d : dict) : bool :=
  match dict_get k d with
  | Some _ => true
  | None => false
  end.

(** [d[k] = v]: an existing key keeps its position, a new key is appended. *)
Fixpoint dict_set (k : string) (v : V) (d : dict) : dict :=
  match d with
  | [] => [(k, v)]
  | (k', v') :: r =>
      if String.eqb k k' then (k, v) :: r else (k', v') :: dict_set k v r
  end.

(** The entries left by [del d[k]]: the entry under [k] is dropped and the
    others keep their order. *)
Fixpoint dict_remove (k : string) (d : dict) : dict :=
  match d with
  | [] => []
  | (k', v') :: r =>
      if String.eqb k k' then dict_remove k r else (k', v') :: dict_remove k r
  end.

End PyDict.

Arguments dict_get {V} k d.
Arguments dict_mem {V} k d.
Arguments dict_set {V} k v d.
Arguments dict_remove {V} k d.
Arguments dict_keys {V} d.
Arguments dict_values {V} d.
Arguments dict_items {V} d.
Arguments dict_len {V} d.
Arguments dict_wf {V} d.

(** ** Decoded JSON documents *)

(** What [json.loads] returns.  A number with a fraction or an exponent is
    kept as the decimal [mantissa * 10 ^ exponent]; the server never does
    arithmetic on it except in the input sink, where the conversion is left
    to the environment. *)
Inductive json : Type :=
| JNull
| JBool (b : bool)
| JInt (n : Z)
| JFloat (mantissa exponent : Z)
| JStr (s : string)
| JList (l : list json)
| JDict (d : list (string * json)).

(** ** Exceptions *)

Inductive exn_class :=
| JSONDecodeError
| UnicodeDecodeError
| KeyError
| TypeError
| AttributeError
| ConnectionClosed
| FileNotFoundError
| RuntimeError
| OSError
| CancelledError.

(** An exception object: its class and [str(e)]. *)
Record exn := Exn { exn_cls : exn_class; exn_str : string }.

(** [isinstance(e, Exception)]: of the classes above only
    [asyncio.CancelledError] derives from [BaseException] directly. *)
Definition is_Exception (e : exn) : bool :=
  match exn_cls e with
  | CancelledError => false
  | _ => true
  end.

Inductive result (A : Type) : Type :=
| Ok (a : A)
| Raise (e : exn).

Arguments Ok {A} a.
Arguments Raise {A} e.

(** ** Python operators on decoded JSON *)

Module Py.

(** [v == s] for a [str] literal [s]. *)
Definition eq_str (v : json) (s : string) : bool :=
  match v with
  | JStr t => String.eqb t s
  | _ => false
  end.

(** [k in data] for a [str] literal [k]. *)
Definition contains (k : string) (data : json) : result bool :=
  match data with
  | JDict d => Ok (dict_mem k d)
  | JList l => Ok (existsb (fun x => eq_str x k) l)
  | JStr s => Ok (PyStr.contains k s)
  | JNull | JBool _ | JInt _ | JFloat _ _ =>
      Raise (Exn TypeError "argument is not iterable")
  end.

(** [d[k]] on a [dict]. *)
Definition dict_getitem (k : string) (d : dict json) : result json :=
  match dict_get k d with
  | Some v => Ok v
  | None => Raise (Exn KeyError k)
  end.

(** [data[k]] for a [str] literal [k]. *)
Definition getitem (data : json) (k : string) : result json :=
  match data with
  | JDict d => dict_getitem k d
  | JList _ | JStr _ => Raise (Exn TypeError "indices must be integers")
  | JNull | JBool _ | JInt _ | JFloat _ _ =>
      Raise (Exn TypeError "object is not subscriptable")
  end.

(** [data.items()] *)
Definition items (data : json) : result (list (string * json)) :=
  match data with
  | JDict d => Ok (dict_items d)
  | _ => Raise (Exn AttributeError "object has no attribute 'items'")
  end.

(** [bool(v)] *)
Definition truthy (v : json) : bool :=
  match v with
  | JNull => false
  | JBool b => b
  | JInt n => negb (Z.eqb n 0)
  | JFloat m _ => negb (Z.eqb m 0)
  | JStr s => negb (String.eqb s "")
  | JList l => match l with [] => false | _ => true end
  | JDict d => match d with [] => false | _ => true end
  end.

(** [v.upper()] *)
Definition upper (v : json) : result string :=
  match v with
  | JStr s => Ok (PyStr.upper s)
  | _ => Raise (Exn AttributeError "object has no attribute 'upper'")
  end.

End Py.

(** ** Configuration (lines 13-51) *)

Definition DOLPHIN_PATH : string := "/path/to/dolphin".
Definition DEBUG_MODE : bool := true.
Definition MAX_CLIENTS : nat := 4.

Definition INPUT_MAP : dict string :=
  [ ("A", "a"); ("B", "b"); ("X", "x"); ("Y", "y"); ("Z", "z");
    ("START", "start");
    ("DPAD_UP", "dpad_up"); ("DPAD_DOWN", "dpad_down");
    ("DPAD_LEFT", "dpad_left"); ("DPAD_RIGHT", "dpad_right");
    ("L", "l"); ("R", "r"); ("ZL", "zl"); ("ZR", "zr");
    ("ANALOG_LEFT_X", "left_x"); ("ANALOG_LEFT_Y", "left_y");
    ("ANALOG_RIGHT_X", "right_x"); ("ANALOG_RIGHT_Y", "right_y") ].

(** ** The world: module globals and what the server does to the outside *)

(** A connection object and a [subprocess.Popen] object, by identity. *)
Definition websocket := nat.
Definition Popen := nat.

(** A frame as [json.loads] sees it: text that is not JSON, bytes that are
    not UTF-8, or a document. *)
Inductive message :=
| NotJSON (raw : string)
| NotUTF8 (raw : string)
| Document (data : json).

Inductive level := INFO | ERROR.

(** The call sites of [log] and [error]. *)
Inductive log_line :=
| LogCheckFailed (e : exn)
| LogWindowsInput
| LogUnsupportedOS (name : string)
| LogSendCommandFailed (e : exn)
| LogRefused
| LogConnected (ws : websocket) (client_id : string)
| LogReceived (ws : websocket) (client_id : string) (data : json)
| LogInvalidJSON (ws : websocket) (m : message)
| LogKeyError (e : exn) (m : message)
| LogDisconnected (ws : websocket) (client_id : string)
| LogAlreadyRunning
| LogStarting (path : string)
| LogStarted
| LogNotFound (path : string)
| LogStartFailed (e : exn)
| LogNotRunning
| LogStopping
| LogStopped
| LogStopFailed (e : exn).

Inductive event :=
| EvLog (lvl : level) (line : log_line)
| EvSend (ws : websocket) (payload : json) (delivered : bool)
| EvClose (ws : websocket)
| EvRun (argv : list string)
| EvPopen (argv : list string)
| EvTerminate (p : Popen)
| EvWait (p : Popen).

Record World := mkWorld {
  connected_clients : dict websocket;
  dolphin_process : option Popen;
  trace : list event
}.

(** What the surroundings answer while one frame is handled. *)
Record Env := mkEnv {
  os_name : string;
  (** [subprocess.run(argv, capture_output=True, text=True).stdout] *)
  subprocess_run : list string -> result string;
  (** [subprocess.Popen(argv, ...)] *)
  subprocess_Popen : list string -> result Popen;
  (** [p.poll()]: [None] while the process lives *)
  poll : Popen -> option Z;
  terminate : Popen -> result unit;
  wait : Popen -> result unit;
  (** [await ws.send(...)] and [await ws.close()] *)
  ws_send : websocket -> result unit;
  ws_close : websocket -> result unit;
  (** [str(uuid.uuid4())] *)
  uuid4 : string;
  (** [f'{int(v * 128 + 128)}'] *)
  analog_value : json -> result string
}.

(** ** The monad of handler code *)

Definition M (A : Type) : Type := World -> result A * World.

Definition ret {A} (a : A) : M A := fun w => (Ok a, w).

Definition raise {A} (e : exn) : M A := fun w => (Raise e, w).

Definition lift {A} (r : result A) : M A := fun w => (r, w).

Definition bind {A B} (m : M A) (k : A -> M B) : M B :=
  fun w =>
    match m w with
    | (Ok a, w') => k a w'
    | (Raise e, w') => (Raise e, w')
    end.

Notation "x <- m ;; k" := (bind m (fun x => k))
  (at level 61, m at next level, right associativity).
Notation "m ;; k" := (bind m (fun _ => k))
  (at level 61, right associativity).

(** [try: body except ...: handler]; [handler e] is [None] when no clause
    matches [e]. *)
Definition try_except {A} (body : M A) (handler : exn -> option (M A)) : M A :=
  fun w =>
    match body w with
    | (Ok a, w') => (Ok a, w')
    | (Raise e, w') =>
        match handler e with
        | Some h => h w'
        | None => (Raise e, w')
        end
    end.

(** [try: body finally: cleanup] *)
Definition try_finally {A} (body : M A) (cleanup : M unit) : M A :=
  fun w =>
    let (r, w') := body w in
    match cleanup w' with
    | (Ok _, w'') => (r, w'')
    | (Raise e, w'') => (Raise e, w'')
    end.

(** [for x in xs: body x] *)
Fixpoint for_each {A} (xs : list A) (body : A -> M unit) : M unit :=
  match xs with
  | [] => ret tt
  | x :: r => body x ;; for_each r body
  end.

Definition emit (ev : event) : M unit :=
  fun w => (Ok tt, mkWorld (connected_clients w) (dolphin_process w)
                           (trace w ++ [ev])).

Definition get_clients : M (dict websocket) :=
  fun w => (Ok (connected_clients w), w).

Definition set_clients (cs : dict websocket) : M unit :=
  fun w => (Ok tt, mkWorld cs (dolphin_process w) (trace w)).

Definition get_process : M (option Popen) :=
  fun w => (Ok (dolphin_process w), w).

Definition set_process (p : option Popen) : M unit :=
  fun w => (Ok tt, mkWorld (connected_clients w) p (trace w)).

(** ** Helper functions (lines 57-137) *)

Definition log (line : log_line) : M unit := emit (EvLog INFO line).

Definition error (line : log_line) : M unit := emit (EvLog ERROR line).

(** [subprocess.run(argv, ...)] *)
Definition run (env : Env) (argv : list string) : M string :=
  emit (EvRun argv) ;; lift (subprocess_run env argv).

(** [await ws.send(json.dumps(payload))] *)
Definition send (env : Env) (ws : websocket) (payload : json) : M unit :=
  match ws_send env ws with
  | Ok _ => emit (EvSend ws payload true)
  | Raise e => emit (EvSend ws payload false) ;; raise e
  end.

(** The process-table scan of [is_dolphin_running] (lines 79-84). *)
Definition scan (env : Env) : M bool :=
  if String.eqb (os_name env) "nt" then
    out <- run env ["tasklist"; "/FI"; "imagename eq Dolphin.exe"] ;;
    ret (PyStr.contains "Dolphin.exe" out)
  else
    out <- run env ["pgrep"; "-x"; "dolphin-emu"] ;;
    ret (negb (String.eqb (PyStr.strip out) "")).

Definition is_dolphin_running (env : Env) : M bool :=
  p <- get_process ;;
  match p with
  | Some h =>
      match poll env h with
      | None => ret true
      | Some _ => set_process None ;; ret false
      end
  | None =>
      try_except (scan env)
        (fun e =>
           if is_Exception e
           then Some (error (LogCheckFailed e) ;; ret false)
           else None)
  end.

(** The input sink [send_command_to_dolphin] (lines 89-137). *)
Definition send_command_to_dolphin
    (env : Env) (player_id : string) (command : dict json) : M unit :=
  match command with
  | [] => ret tt
  | _ =>
      try_except
        (if String.eqb (os_name env) "posix" then
           if dict_mem "ANALOG" command then
             if dict_mem "X" command then
               v <- lift (Py.dict_getitem "ANALOG_LEFT_X" command) ;;
               x_value <- lift (analog_value env v) ;;
               run env ["xdotool"; "mousemove"; "--relative"; "--sync";
                        x_value; "0"] ;;
               ret tt
             else if dict_mem "Y" command then
               v <- lift (Py.dict_getitem "ANALOG_LEFT_Y" command) ;;
               y_value <- lift (analog_value env v) ;;
               run env ["xdotool"; "mousemove"; "--relative"; "--sync";
                        "0"; y_value] ;;
               ret tt
             else ret tt
           else
             ty <- lift (Py.dict_getitem "type" command) ;;
             if Py.eq_str ty "button" then
               button <- lift (Py.dict_getitem "button" command) ;;
               value <- lift (Py.dict_getitem "value" command) ;;
               if Py.truthy value then
                 key <- lift (Py.upper button) ;;
                 run env ["xdotool"; "key"; key] ;;
                 ret tt
               else ret tt
             else ret tt
         else if String.eqb (os_name env) "nt" then log LogWindowsInput
         else log (LogUnsupportedOS (os_name env)))
        (fun e =>
           if is_Exception e
           then Some (error (LogSendCommandFailed e))
           else None)
  end.

(** ** The registry (lines 145-152 and 185-187) *)

(** The admission test and the insertion at the head of [handle_client]:
    [None] when the connection is refused. *)
Definition register
    (client_id : string) (ws : websocket) (cs : dict websocket)
  : option (dict websocket) :=
  if (MAX_CLIENTS <=? dict_len cs)%nat then None
  else Some (dict_set client_id ws cs).

(** [del d[k]] *)
Definition dict_delitem {V} (k : string) (d : dict V) : result (dict V) :=
  if dict_mem k d then Ok (dict_remove k d) else Raise (Exn KeyError k).

(** The [finally] clause of [handle_client]. *)
Definition deregister
    (client_id : string) (cs : dict websocket) : result (dict websocket) :=
  if dict_mem client_id cs then dict_delitem client_id cs else Ok cs.

(** What the handlers of the other connections do to the registry while
    this one is suspended. *)
Inductive reg_op :=
| Connect (client_id : string) (ws : websocket)
| Disconnect (client_id : string).

Definition apply_op (op : reg_op) (cs : dict websocket) : dict websocket :=
  match op with
  | Connect client_id ws =>
      match register client_id ws cs with
      | Some cs' => cs'
      | None => cs
      end
  | Disconnect client_id =>
      match deregister client_id cs with
      | Ok cs' => cs'
      | Raise _ => cs
      end
  end.

Definition apply_ops (ops : list reg_op) (cs : dict websocket)
  : dict websocket :=
  fold_left (fun acc op => apply_op op acc) ops cs.

(** ** Input remapping (lines 164-167) *)

Definition remap_step (remapped_data : dict json) (kv : string * json)
  : dict json :=
  let (key, value) := kv in
  match dict_get key INPUT_MAP with
  | Some target => dict_set target value remapped_data
  | None => remapped_data
  end.

Definition remapped_data (items : list (string * json)) : dict json :=
  fold_left remap_step items [].

(** ** Process lifecycle (lines 189-239) *)

(** [for client in connected_clients.values(): await client.send(...)] *)
Definition send_to_all (env : Env) (payload : json) : M unit :=
  cs <- get_clients ;;
  for_each (dict_values cs) (fun client => send env client payload).

Definition error_payload (text : string) : json :=
  JDict [("error", JStr text)].

Definition popen (env : Env) (argv : list string) : M Popen :=
  emit (EvPopen argv) ;; lift (subprocess_Popen env argv).

Definition start_dolphin (env : Env) : M unit :=
  running <- is_dolphin_running env ;;
  if running then log LogAlreadyRunning
  else
    try_except
      (log (LogStarting DOLPHIN_PATH) ;;
       p <- popen env [DOLPHIN_PATH] ;;
       set_process (Some p) ;;
       log LogStarted)
      (fun e =>
         match exn_cls e with
         | FileNotFoundError =>
             Some (error (LogNotFound DOLPHIN_PATH) ;;
                   send_to_all env
                     (error_payload "Dolphin executable not found"))
         | _ =>
             if is_Exception e then
               Some (error (LogStartFailed e) ;;
                     send_to_all env
                       (error_payload
                          ("Failed to start Dolphin: " ++ exn_str e)))
             else None
         end).

Definition stop_dolphin (env : Env) : M unit :=
  running <- is_dolphin_running env ;;
  if negb running then log LogNotRunning
  else
    try_finally
      (try_except
         (log LogStopping ;;
          p <- get_process ;;
          match p with
          | Some h =>
              emit (EvTerminate h) ;; lift (terminate env h) ;;
              emit (EvWait h) ;; lift (wait env h)
          | None => ret tt
          end ;;
          log LogStopped)
         (fun e =>
            if is_Exception e then
              Some (error (LogStopFailed e) ;;
                    send_to_all env
                      (error_payload
                         ("Failed to stop Dolphin: " ++ exn_str e)))
            else None))
      (set_process None).

(** ** The connection handler (lines 143-187) *)

Definition json_loads (m : message) : result json :=
  match m with
  | NotJSON _ => Raise (Exn JSONDecodeError "Expecting value")
  | NotUTF8 _ => Raise (Exn UnicodeDecodeError "invalid start byte")
  | Document data => Ok data
  end.

Definition status_payload (running : bool) : json :=
  JDict [("status", JStr (if running then "Running" else "Stopped"))].

(** The body of the inner [try] (lines 158-177). *)
Definition dispatch
    (env : Env) (ws : websocket) (client_id : string) (m : message)
  : M unit :=
  data <- lift (json_loads m) ;;
  (if DEBUG_MODE then log (LogReceived ws client_id data) else ret tt) ;;
  has_type <- lift (Py.contains "type" data) ;;
  is_input <- (if has_type : bool then
                 ty <- lift (Py.getitem data "type") ;;
                 ret (Py.eq_str ty "controller_input")
               else ret false) ;;
  if is_input : bool then
    input <- lift (Py.getitem data "input") ;;
    items <- lift (Py.items input) ;;
    send_command_to_dolphin env client_id (remapped_data items)
  else
    has_command <- lift (Py.contains "command" data) ;;
    if has_command : bool then
      command <- lift (Py.getitem data "command") ;;
      if Py.eq_str command "start_dolphin" then start_dolphin env
      else if Py.eq_str command "stop_dolphin" then stop_dolphin env
      else if Py.eq_str command "status" then
        running <- is_dolphin_running env ;;
        send env ws (status_payload running)
      else ret tt
    else ret tt.

(** One turn of the [async for] loop (lines 157-181). *)
Definition on_message
    (env : Env) (ws : websocket) (client_id : string) (m : message)
  : M unit :=
  try_except (dispatch env ws client_id m)
    (fun e =>
       match exn_cls e with
       | JSONDecodeError => Some (error (LogInvalidJSON ws m))
       | KeyError => Some (error (LogKeyError e m))
       | _ => None
       end).

(** What happens while the handler waits in [async for]: a frame arrives
    (with the surroundings as they are while it is handled), or other
    connections come and go. *)
Inductive arrival :=
| Frame (env : Env) (m : message)
| Elsewhere (ops : list reg_op).

(** [async for message in websocket]: the iterator ends normally
    ([ending = None]) or raises. *)
Fixpoint message_loop
    (ws : websocket) (client_id : string)
    (inbox : list arrival) (ending : option exn) : M unit :=
  match inbox with
  | [] =>
      match ending with
      | None => ret tt
      | Some e => raise e
      end
  | Frame env m :: rest =>
      on_message env ws client_id m ;;
      message_loop ws client_id rest ending
  | Elsewhere ops :: rest =>
      (cs <- get_clients ;; set_clients (apply_ops ops cs)) ;;
      message_loop ws client_id rest ending
  end.

Definition welcome_payload (client_id : string) : json :=
  JDict [("message", JStr "Connected to Dolphin Controller Server");
         ("client_id", JStr client_id)].

Definition handle_client
    (env : Env) (ws : websocket)
    (inbox : list arrival) (ending : option exn) : M unit :=
  cs <- get_clients ;;
  match register (uuid4 env) ws cs with
  | None =>
      error LogRefused ;;
      send env ws (error_payload "Too many clients") ;;
      emit (EvClose ws) ;; lift (ws_close env ws)
  | Some cs' =>
      let client_id := uuid4 env in
      set_clients cs' ;;
      try_finally
        (try_except
           (log (LogConnected ws client_id) ;;
            send env ws (welcome_payload client_id) ;;
            message_loop ws client_id inbox ending)
           (fun e =>
              match exn_cls e with
              | ConnectionClosed => Some (log (LogDisconnected ws client_id))
              | _ => None
              end))
        (cs <- get_clients ;;
         cs'' <- lift (deregister client_id cs) ;;
         set_clients cs'')
  end.

(** ** Sample surroundings *)

(** A POSIX host on which no emulator runs, every call succeeds and the
    next identity drawn is ["u-9"]. *)
Definition quiet_env : Env :=
  {| os_name := "posix";
     subprocess_run := fun _ => Ok "";
     subprocess_Popen := fun _ => Ok 100;
     poll := fun _ => None;
     terminate := fun _ => Ok tt;
     wait := fun _ => Ok tt;
     ws_send := fun _ => Ok tt;
     ws_close := fun _ => Ok tt;
     uuid4 := "u-9";
     analog_value := fun _ => Ok "128" |}.

(** The same host with the executable of [DOLPHIN_PATH] missing. *)
Definition no_executable_env : Env :=
  {| os_name := "posix";
     subprocess_run := fun _ => Ok "";
     subprocess_Popen :=
       fun _ => Raise (Exn FileNotFoundError "No such file or directory");
     poll := fun _ => None;
     terminate := fun _ => Ok tt;
     wait := fun _ => Ok tt;
     ws_send := fun _ => Ok tt;
     ws_close := fun _ => Ok tt;
     uuid4 := "u-9";
     analog_value := fun _ => Ok "128" |}.

(** [env] with the connection [dead] closed under it: sending raises. *)
Definition with_closed (dead : websocket) (env : Env) : Env :=
  {| os_name := os_name env;
     subprocess_run := subprocess_run env;
     subprocess_Popen := subprocess_Popen env;
     poll := poll env;
     terminate := terminate env;
     wait := wait env;
     ws_send := fun ws =>
       if Nat.eqb ws dead
       then Raise (Exn ConnectionClosed "no close frame received or sent")
       else ws_send env ws;
     ws_close := ws_close env;
     uuid4 := uuid4 env;
     analog_value := analog_value env |}.


Definition two_sessions : World :=
  {| connected_clients := [("u-1", 1); ("u-2", 2)];
     dolphin_process := None;
     trace := [] |}.

(** ** Vocabulary of the statements *)

(** [w] after the events [evs]. *)
Definition extend (w : World) (evs : list event) : World :=
  {| connected_clients := connected_clients w;
     dolphin_process := dolphin_process w;
     trace := trace w ++ evs |}.

(** The socket sends of a trace, in order: receiver, payload, delivered. *)
Fixpoint sends (evs : list event) : list (websocket * json * bool) :=
  match evs with
  | [] => []
  | EvSend ws payload delivered :: r => (ws, payload, delivered) :: sends r
  | _ :: r => sends r
  end.

(** The launches of a trace. *)
Fixpoint launches (evs : list event) : list (list string) :=
  match evs with
  | [] => []
  | EvPopen argv :: r => argv :: launches r
  | _ :: r => launches r
  end.

(** The command line of the process-table scan on this platform. *)
Definition scan_argv (env : Env) : list string :=
  if String.eqb (os_name env) "nt"
  then ["tasklist"; "/FI"; "imagename eq Dolphin.exe"]
  else ["pgrep"; "-x"; "dolphin-emu"].

(** A delivery of [payload] to each of [clients]. *)
Definition deliveries (payload : json) (clients : list websocket)
  : list event :=
  map (fun ws => EvSend ws payload true) clients.

(** The first branch of the dispatch is taken on the object [d]. *)
Definition is_controller_input (d : dict json) : bool :=
  match dict_get "type" d with
  | Some ty => Py.eq_str ty "controller_input"
  | None => false
  end.





(** The trace of [w'] continues the trace of [w]. *)
Definition grows (w w' : World) : Prop :=
  exists evs, trace w' = trace w ++ evs.

(** The registry of [w'] is the registry of [w]. *)
Definition same_clients (w w' : World) : Prop :=
  connected_clients w' = connected_clients w.


(** The notice sent when the executable is missing (line 214). *)
Definition not_found_notice : json :=
  error_payload "Dolphin executable not found".

(** Whether [await ws.send(...)] goes through. *)
Definition delivered (env : Env) (ws : websocket) : bool :=
  match ws_send env ws with
  | Ok _ => true
  | Raise _ => false
  end.

(** [env] on a host where the scan command cannot be run. *)
Definition with_failing_scan (env : Env) : Env :=
  {| os_name := os_name env;
     subprocess_run := fun _ =>
       Raise (Exn FileNotFoundError "No such file or directory: 'pgrep'");
     subprocess_Popen := subprocess_Popen env;
     poll := poll env;
     terminate := terminate env;
     wait := wait env;
     ws_send := ws_send env;
     ws_close := ws_close env;
     uuid4 := uuid4 env;
     analog_value := analog_value env |}.

(** A relation between the world before and the world after is respected
    by a computation when every run of it, returning or raising, stays
    inside the relation. *)
Definition respects (R : World -> World -> Prop) {A} (m : M A) : Prop :=
  forall w, R w (snd (m w)).

(** ** Further surroundings and vocabulary *)

(** [env] with every held process already exited with code [rc]. *)
Definition with_exit_code (rc : Z) (env : Env) : Env :=
  {| os_name := os_name env;
     subprocess_run := subprocess_run env;
     subprocess_Popen := subprocess_Popen env;
     poll := fun _ => Some rc;
     terminate := terminate env;
     wait := wait env;
     ws_send := ws_send env;
     ws_close := ws_close env;
     uuid4 := uuid4 env;
     analog_value := analog_value env |}.

(** [env] with the scan command printing [out]. *)
Definition with_scan_output (out : string) (env : Env) : Env :=
  {| os_name := os_name env;
     subprocess_run := fun _ => Ok out;
     subprocess_Popen := subprocess_Popen env;
     poll := poll env;
     terminate := terminate env;
     wait := wait env;
     ws_send := ws_send env;
     ws_close := ws_close env;
     uuid4 := uuid4 env;
     analog_value := analog_value env |}.


(** The [terminate()] calls of a trace. *)
Fixpoint terminations (evs : list event) : list Popen :=
  match evs with
  | [] => []
  | EvTerminate p :: r => p :: terminations r
  | _ :: r => terminations r
  end.

(** The [subprocess.run] calls of a trace. *)
Fixpoint runs (evs : list event) : list (list string) :=
  match evs with
  | [] => []
  | EvRun argv :: r => argv :: runs r
  | _ :: r => runs r
  end.

(** Every character of [s] is white space. *)
Definition all_space (s : string) : bool :=
  forallb PyStr.is_space (list_ascii_of_string s).

(** The entries of an input mapping whose key is in [INPUT_MAP]. *)
Definition known_items (items : list (string * json))
  : list (string * json) :=
  filter (fun kv => dict_mem (fst kv) INPUT_MAP) items.

(** What the input sink does with a remapped frame on this platform. *)
Definition sink_reaction (env : Env) (command : dict json) : list event :=
  match command with
  | [] => []
  | _ =>
      if String.eqb (os_name env) "posix" then
        [EvLog ERROR (LogSendCommandFailed (Exn KeyError "type"))]
      else if String.eqb (os_name env) "nt" then [EvLog INFO LogWindowsInput]
      else [EvLog INFO (LogUnsupportedOS (os_name env))]
  end.

(** A decoded document on which [in] raises: [None], a [bool], an [int] or
    a [float]. *)
Definition is_scalar (data : json) : bool :=
  match data with
  | JNull | JBool _ | JInt _ | JFloat _ _ => true
  | _ => false
  end.

(** The inbox holds frames only: no other connection comes or goes. *)
Definition frames_only (inbox : list arrival) : bool :=
  forallb (fun a => match a with Frame _ _ => true | Elsewhere _ => false end)
          inbox.

(** The receipt line of a frame that decodes. *)
Definition receipt (ws : websocket) (client_id : string) (m : message)
  : list event :=
  match m with
  | Document data => [EvLog INFO (LogReceived ws client_id data)]
  | _ => []
  end.

(** The exception with which a frame leaves the receive loop, if it does:
    bytes that are not UTF-8; a scalar document; a string or an array that
    holds the word looked for; a controller input whose ["input"] is not an
    object. *)
Definition fatal_error (m : message) : option exn :=
  match m with
  | NotJSON _ => None
  | NotUTF8 _ => Some (Exn UnicodeDecodeError "invalid start byte")
  | Document data =>
      match data with
      | JNull | JBool _ | JInt _ | JFloat _ _ =>
          Some (Exn TypeError "argument is not iterable")
      | JStr s =>
          if PyStr.contains "type" s || PyStr.contains "command" s
          then Some (Exn TypeError "indices must be integers")
          else None
      | JList l =>
          if existsb (fun x => Py.eq_str x "type") l
             || existsb (fun x => Py.eq_str x "command") l
          then Some (Exn TypeError "indices must be integers")
          else None
      | JDict d =>
          if is_controller_input d then
            match dict_get "input" d with
            | Some (JDict _) | None => None
            | Some _ =>
                Some (Exn AttributeError "object has no attribute 'items'")
            end
          else None
      end
  end.

(** * Properties *)

(** ** Facts about dictionaries *)

Section DictFacts.

Context {V : Type}.
Implicit Types (d : dict V) (k : string) (v : V).

Lemma dict_get_set_same k v d : dict_get k (dict_set k v d) = Some v.
Proof.
  induction d as [|[k' v'] r IH]; simpl.
  - now rewrite String.eqb_refl.
  - destruct (String.eqb k k') eqn:E; simpl.
    + now rewrite String.eqb_refl.
    + now rewrite E.
Qed.

Lemma dict_get_set_other k k' v d :
  k' <> k -> dict_get k' (dict_set k v d) = dict_get k' d.
Proof.
  intros Hne. apply String.eqb_neq in Hne.
  induction d as [|[k0 v0] r IH]; simpl.
  - now rewrite Hne.
  - destruct (String.eqb k k0) eqn:E; simpl.
    + apply String.eqb_eq in E. subst k0. now rewrite Hne.
    + now rewrite IH.
Qed.

Lemma dict_get_None_keys k d :
  dict_get k d = None <-> ~ In k (dict_keys d).
Proof.
  induction d as [|[k' v'] r IH]; simpl.
  - tauto.
  - destruct (String.eqb_spec k k') as [->|Hne].
    + split; [discriminate | tauto].
    + rewrite IH. split; intros H; [intros [?|?]; [congruence | tauto] | tauto].
Qed.

Lemma dict_get_In k v d : dict_get k d = Some v -> In (k, v) d.
Proof.
  induction d as [|[k' v'] r IH]; simpl; [discriminate|].
  destruct (String.eqb_spec k k') as [->|Hne].
  - intros [= ->]. now left.
  - intros H. right. now apply IH.
Qed.

Lemma dict_In_get k v d : dict_wf d -> In (k, v) d -> dict_get k d = Some v.
Proof.
  unfold dict_wf.
  induction d as [|[k' v'] r IH]; simpl; [tauto|].
  intros Hnd [Heq|Hin].
  - injection Heq as -> ->. now rewrite String.eqb_refl.
  - inversion Hnd as [|? ? Hnotin Hnd']; subst.
    destruct (String.eqb_spec k k') as [->|Hne].
    + exfalso. apply Hnotin. change k' with (fst (k', v)).
      now apply in_map.
    + now apply IH.
Qed.

Lemma dict_len_set_fresh k v d :
  dict_get k d = None -> dict_len (dict_set k v d) = S (dict_len d).
Proof.
  unfold dict_len.
  induction d as [|[k' v'] r IH]; simpl; [reflexivity|].
  destruct (String.eqb k k'); [discriminate|].
  intros H. simpl. now rewrite IH.
Qed.




(** On a well-formed dictionary [del] drops exactly one entry. *)
Lemma dict_len_remove_present k d :
  dict_wf d -> dict_mem k d = true ->
  S (dict_len (dict_remove k d)) = dict_len d.
Proof.
  unfold dict_wf, dict_mem, dict_len.
  induction d as [|[k' v'] r IH]; simpl; [discriminate|].
  intros Hnd Hmem. inversion Hnd as [|? ? Hnotin Hnd']; subst.
  destruct (String.eqb_spec k k') as [->|Hne]; simpl.
  - f_equal. apply dict_get_None_keys in Hnotin.
    clear - Hnotin. induction r as [|[k0 v0] r IH]; simpl in *; [reflexivity|].
    destruct (String.eqb k' k0); [discriminate|]. simpl. f_equal. now apply IH.
  - f_equal. now apply IH.
Qed.

Lemma dict_get_remove_same k d : dict_get k (dict_remove k d) = None.
Proof.
  induction d as [|[k' v'] r IH]; simpl; [reflexivity|].
  destruct (String.eqb k k') eqn:E; simpl; [assumption|].
  now rewrite E.
Qed.

Lemma dict_get_remove_other k k' d :
  k' <> k -> dict_get k' (dict_remove k d) = dict_get k' d.
Proof.
  intros Hne.
  induction d as [|[k0 v0] r IH]; simpl; [reflexivity|].
  destruct (String.eqb_spec k k0) as [->|Hne0]; simpl.
  - apply String.eqb_neq in Hne. now rewrite Hne.
  - now rewrite IH.
Qed.

Lemma dict_remove_absent k d : dict_get k d = None -> dict_remove k d = d.
Proof.
  induction d as [|[k' v'] r IH]; simpl; [reflexivity|].
  destruct (String.eqb k k'); [discriminate|].
  intros H. now rewrite IH.
Qed.

Lemma dict_keys_set k k' v d :
  In k' (dict_keys (dict_set k v d)) <-> k' = k \/ In k' (dict_keys d).
Proof.
  induction d as [|[k0 v0] r IH]; simpl.
  - intuition congruence.
  - destruct (String.eqb_spec k k0) as [->|Hne]; simpl.
    + intuition congruence.
    + rewrite IH. intuition congruence.
Qed.

Lemma dict_wf_set k v d : dict_wf d -> dict_wf (dict_set k v d).
Proof.
  unfold dict_wf.
  induction d as [|[k0 v0] r IH]; simpl; intros Hnd.
  - constructor; [tauto | constructor].
  - inversion Hnd as [|? ? Hnotin Hnd']; subst.
    destruct (String.eqb_spec k k0) as [->|Hne]; simpl.
    + now constructor.
    + constructor; [|now apply IH].
      intros Hin. apply dict_keys_set in Hin. intuition congruence.
Qed.

Lemma dict_keys_remove k k' d :
  In k' (dict_keys (dict_remove k d)) -> In k' (dict_keys d).
Proof.
  induction d as [|[k0 v0] r IH]; simpl; [tauto|].
  destruct (String.eqb k k0); simpl; tauto.
Qed.

Lemma dict_wf_remove k d : dict_wf d -> dict_wf (dict_remove k d).
Proof.
  unfold dict_wf.
  induction d as [|[k0 v0] r IH]; simpl; intros Hnd; [constructor|].
  inversion Hnd as [|? ? Hnotin Hnd']; subst.
  destruct (String.eqb k k0); simpl; [now apply IH|].
  constructor; [|now apply IH].
  intros Hin. apply Hnotin. now apply dict_keys_remove in Hin.
Qed.

End DictFacts.

(** ** The registry: admission, removal, capacity *)

Lemma register_accepts client_id ws cs :
  dict_len cs < MAX_CLIENTS ->
  register client_id ws cs = Some (dict_set client_id ws cs).
Proof.
  intros H. unfold register.
  destruct (Nat.leb_spec MAX_CLIENTS (dict_len cs)); [lia | reflexivity].
Qed.

Lemma register_refuses client_id ws cs :
  MAX_CLIENTS <= dict_len cs -> register client_id ws cs = None.
Proof.
  intros H. unfold register.
  destruct (Nat.leb_spec MAX_CLIENTS (dict_len cs)); [reflexivity | lia].
Qed.

Lemma deregister_eq client_id cs :
  deregister client_id cs = Ok (dict_remove client_id cs).
Proof.
  unfold deregister, dict_delitem, dict_mem.
  destruct (dict_get client_id cs) eqn:E; [reflexivity|].
  now rewrite dict_remove_absent.
Qed.



Lemma apply_op_wf op cs : dict_wf cs -> dict_wf (apply_op op cs).
Proof.
  intros H. destruct op as [client_id ws | client_id]; simpl.
  - unfold register. destruct (MAX_CLIENTS <=? dict_len cs)%nat;
      [assumption | now apply dict_wf_set].
  - rewrite deregister_eq. now apply dict_wf_remove.
Qed.


(** C7.  Removing an identity never raises; on an identity that is not
    registered it leaves the registry as it is; and a second removal changes
    nothing after the first. *)
Theorem deregister_idempotent :
  forall (cs : dict websocket) (client_id : string),
    (exists cs1,
       deregister client_id cs = Ok cs1 /\
       dict_get client_id cs1 = None /\
       deregister client_id cs1 = Ok cs1) /\
    (dict_get client_id cs = None -> deregister client_id cs = Ok cs).
Proof.
  intros cs client_id. split.
  - exists (dict_remove client_id cs).
    rewrite !deregister_eq. repeat split.
    + apply dict_get_remove_same.
    + f_equal. apply dict_remove_absent, dict_get_remove_same.
  - intros Habsent. rewrite deregister_eq.
    f_equal. now apply dict_remove_absent.
Qed.

Lemma deregister_idempotent_witness :
  deregister "u-9" [("u-1", 1); ("u-2", 2)] = Ok [("u-1", 1); ("u-2", 2)].
Proof.
  apply (deregister_idempotent [("u-1", 1); ("u-2", 2)] "u-9").
  reflexivity.
Defined.

(** ** Guaranteed cleanup *)

(** C3.  Once a connection has been admitted its identity is registered,
    and whatever the frames, the surroundings and the way the receive loop
    ends (the iterator finishing, [ConnectionClosed], any other exception,
    raised by the iterator or while a frame is handled), the identity is no
    longer a key of the registry when [handle_client] is left. *)
Theorem handle_client_always_deregisters :
  forall (env : Env) (ws : websocket) (inbox : list arrival)
         (ending : option exn) (w : World),
    dict_len (connected_clients w) < MAX_CLIENTS ->
    (exists cs',
       register (uuid4 env) ws (connected_clients w) = Some cs' /\
       dict_get (uuid4 env) cs' = Some ws) /\
    dict_get (uuid4 env)
      (connected_clients (snd (handle_client env ws inbox ending w))) = None.
Proof.
  intros env ws inbox ending w Hroom. split.
  - eexists. split; [now apply register_accepts | apply dict_get_set_same].
  - unfold handle_client, bind at 1, get_clients at 1.
    rewrite (register_accepts (uuid4 env) ws _ Hroom).
    unfold bind at 1, set_clients at 1, try_finally.
    match goal with |- context [try_except ?b ?h ?w0] =>
      destruct (try_except b h w0) as [r w1] end.
    unfold bind, get_clients, lift, set_clients.
    rewrite deregister_eq. destruct r; simpl; apply dict_get_remove_same.
Qed.

Lemma handle_client_always_deregisters_witness :
  dict_get "u-9"
    (connected_clients
       (snd (handle_client quiet_env 3
               [Frame quiet_env (Document (JInt 5))] None two_sessions)))
  = None.
Proof.
  apply (handle_client_always_deregisters quiet_env 3
           [Frame quiet_env (Document (JInt 5))] None two_sessions).
  vm_compute. lia.
Defined.

(** The three ways out of the handler, on the registry of [two_sessions]. *)
Example exit_on_normal_close :
  let (r, w') := handle_client quiet_env 3
                   [Frame quiet_env (NotJSON "{")] None two_sessions in
  r = Ok tt /\ connected_clients w' = connected_clients two_sessions.
Proof. vm_compute. split; reflexivity. Qed.

Example exit_on_connection_closed :
  let (r, w') := handle_client quiet_env 3 []
                   (Some (Exn ConnectionClosed "1006")) two_sessions in
  r = Ok tt /\ connected_clients w' = connected_clients two_sessions /\
  In (EvLog INFO (LogDisconnected 3 "u-9")) (trace w').
Proof. vm_compute. repeat split. tauto. Qed.

Example exit_on_exception_mid_loop :
  let (r, w') := handle_client quiet_env 3
                   [Frame quiet_env (Document (JInt 5));
                    Frame quiet_env (NotJSON "{")] None two_sessions in
  r = Raise (Exn TypeError "argument is not iterable") /\
  connected_clients w' = connected_clients two_sessions.
Proof. vm_compute. split; reflexivity. Qed.

(** ** Input remapping *)

Lemma dict_values_nodup_inj {V} (d : dict V) k1 k2 v :
  NoDup (dict_values d) -> In (k1, v) d -> In (k2, v) d -> k1 = k2.
Proof.
  unfold dict_values.
  induction d as [|[k0 v0] r IH]; simpl; [tauto|].
  intros Hnd H1 H2. inversion Hnd as [|? ? Hnotin Hnd']; subst.
  assert (Hsnd : forall k, In (k, v0) r -> False).
  { intros k Hin. apply Hnotin. change v0 with (snd (k, v0)).
    now apply in_map. }
  destruct H1 as [H1|H1], H2 as [H2|H2].
  - congruence.
  - injection H1 as -> ->. destruct (Hsnd _ H2).
  - injection H2 as -> ->. destruct (Hsnd _ H1).
  - now apply IH.
Qed.

Ltac not_among :=
  simpl; intros Hin;
  repeat (destruct Hin as [Hin|Hin]; [discriminate Hin|]); exact Hin.

Lemma INPUT_MAP_targets_distinct : NoDup (dict_values INPUT_MAP).
Proof.
  unfold INPUT_MAP. simpl.
  repeat (constructor; [not_among|]). constructor.
Qed.

Lemma INPUT_MAP_injective k1 k2 target :
  dict_get k1 INPUT_MAP = Some target ->
  dict_get k2 INPUT_MAP = Some target ->
  k1 = k2.
Proof.
  intros H1 H2.
  eapply dict_values_nodup_inj;
    eauto using INPUT_MAP_targets_distinct, dict_get_In.
Qed.

Section Remap.

Implicit Types (acc items : dict json) (k target : string) (v : json).

Lemma remap_step_hit acc k v target :
  dict_get k INPUT_MAP = Some target ->
  dict_get target (remap_step acc (k, v)) = Some v.
Proof.
  intros H. unfold remap_step. rewrite H. apply dict_get_set_same.
Qed.

Lemma remap_step_miss acc k v target :
  dict_get k INPUT_MAP <> Some target ->
  dict_get target (remap_step acc (k, v)) = dict_get target acc.
Proof.
  intros H. unfold remap_step.
  destruct (dict_get k INPUT_MAP) as [t|]; [|reflexivity].
  apply dict_get_set_other. congruence.
Qed.

Lemma remap_fold_miss items acc target :
  (forall k v, In (k, v) items -> dict_get k INPUT_MAP <> Some target) ->
  dict_get target (fold_left remap_step items acc) = dict_get target acc.
Proof.
  revert acc.
  induction items as [|[k0 v0] r IH]; intros acc H; simpl; [reflexivity|].
  rewrite IH.
  - apply remap_step_miss. apply (H k0 v0). now left.
  - intros k v Hin. apply (H k v). now right.
Qed.

Lemma remap_fold_hit items acc k v target :
  dict_wf items ->
  dict_get k INPUT_MAP = Some target ->
  In (k, v) items ->
  dict_get target (fold_left remap_step items acc) = Some v.
Proof.
  unfold dict_wf. revert acc.
  induction items as [|[k0 v0] r IH]; intros acc Hnd Hk Hin; simpl;
    [destruct Hin|].
  inversion Hnd as [|? ? Hnotin Hnd']; subst.
  destruct Hin as [Heq|Hin].
  - injection Heq as -> ->.
    rewrite remap_fold_miss; [now apply remap_step_hit|].
    intros k' v' Hin' Hk'.
    apply Hnotin. rewrite (INPUT_MAP_injective _ _ Hk Hk').
    change k' with (fst (k', v')). now apply in_map.
  - now apply IH.
Qed.

Lemma remap_fold_sound items acc target v :
  dict_get target (fold_left remap_step items acc) = Some v ->
  dict_get target acc = Some v \/
  exists k, dict_get k INPUT_MAP = Some target /\ In (k, v) items.
Proof.
  revert acc.
  induction items as [|[k0 v0] r IH]; intros acc H;
    cbn [fold_left] in H; [now left|].
  destruct (IH _ H) as [Hacc | (k & Hk & Hin)].
  - unfold remap_step in Hacc.
    destruct (dict_get k0 INPUT_MAP) as [t0|] eqn:E0; [|now left].
    destruct (String.eqb_spec target t0) as [->|Hne].
    + rewrite dict_get_set_same in Hacc. injection Hacc as ->.
      right. exists k0. split; [assumption | now left].
    + rewrite dict_get_set_other in Hacc by assumption. now left.
  - right. exists k. split; [assumption | now right].
Qed.

Lemma remap_fold_wf items acc :
  dict_wf acc -> dict_wf (fold_left remap_step items acc).
Proof.
  revert acc.
  induction items as [|[k0 v0] r IH]; intros acc H; cbn [fold_left];
    [assumption|].
  apply IH. unfold remap_step.
  destruct (dict_get k0 INPUT_MAP); [now apply dict_wf_set | assumption].
Qed.

Lemma remap_fold_drops_unknown items acc k :
  dict_get k INPUT_MAP = None ->
  fold_left remap_step (dict_remove k items) acc
  = fold_left remap_step items acc.
Proof.
  intros Hk. revert acc.
  induction items as [|[k0 v0] r IH]; intros acc;
    cbn [dict_remove fold_left]; [reflexivity|].
  destruct (String.eqb_spec k k0) as [<-|Hne]; cbn [fold_left].
  - replace (remap_step acc (k, v0)) with acc
      by (unfold remap_step; now rewrite Hk).
    apply IH.
  - apply IH.
Qed.

End Remap.

(** C2, as amended.  For an input mapping, each of its keys that is in
    [INPUT_MAP] yields exactly one output entry, under the table's target
    key and with the input value unchanged; every output entry arises in
    this way; and a key that is not in the table contributes nothing: the
    output is the one computed without it.  The remapping is a total
    function, so no key makes it fail. *)
Theorem remapped_data_spec :
  forall items : dict json,
    dict_wf items ->
    (forall k target v,
       dict_get k INPUT_MAP = Some target ->
       dict_get k items = Some v ->
       dict_get target (remapped_data items) = Some v /\
       count_occ string_dec (dict_keys (remapped_data items)) target = 1) /\
    (forall target v,
       dict_get target (remapped_data items) = Some v ->
       exists k,
         dict_get k INPUT_MAP = Some target /\ dict_get k items = Some v) /\
    (forall k,
       dict_get k INPUT_MAP = None ->
       remapped_data (dict_remove k items) = remapped_data items).
Proof.
  intros items Hwf. unfold remapped_data. split; [|split].
  - intros k target v Hk Hv.
    assert (Hget : dict_get target (fold_left remap_step items []) = Some v)
      by (eapply remap_fold_hit; eauto using dict_get_In).
    split; [assumption|].
    apply NoDup_count_occ'.
    + apply remap_fold_wf. constructor.
    + destruct (in_dec string_dec target
                  (dict_keys (fold_left remap_step items []))) as [Hin|Hout];
        [assumption|].
      apply dict_get_None_keys in Hout. congruence.
  - intros target v H.
    destruct (remap_fold_sound _ _ _ H) as [Hnil | (k & Hk & Hin)];
      [discriminate|].
    exists k. split; [assumption | now apply dict_In_get].
  - intros k Hk. now apply remap_fold_drops_unknown.
Qed.

Lemma remapped_data_spec_witness :
  let items := [("A", JBool true); ("UNKNOWN", JInt 1)] in
  dict_get "a" (remapped_data items) = Some (JBool true) /\
  remapped_data (dict_remove "UNKNOWN" items) = remapped_data items.
Proof.
  intros items. subst items.
  assert (Hwf : dict_wf [("A", JBool true); ("UNKNOWN", JInt 1)]).
  { unfold dict_wf. simpl. repeat (constructor; [not_among|]). constructor. }
  destruct (remapped_data_spec Hwf) as (Hhit & _ & Hdrop).
  split.
  - apply (Hhit "A" "a" (JBool true)); reflexivity.
  - apply Hdrop. reflexivity.
Defined.

(** C2, as stated, fails: ["a"] is a key of the input that is not in
    [INPUT_MAP], and it is a key of the output, where it carries the value
    sent under ["A"]. *)
Lemma unknown_key_present_in_output :
  let items := [("A", JBool true); ("a", JBool false)] in
  dict_wf items /\
  dict_get "a" items = Some (JBool false) /\
  dict_get "a" INPUT_MAP = None /\
  dict_mem "a" (remapped_data items) = true /\
  remapped_data items = [("a", JBool true)].
Proof.
  intros items. subst items. repeat split.
  unfold dict_wf. simpl. repeat (constructor; [not_among|]). constructor.
Qed.

(** The frame [{"type": "controller_input", "input": {"A": true,
    "UNKNOWN": 1}}] reaches the sink as [{"a": true}]. *)
Example remap_known_and_unknown :
  remapped_data [("A", JBool true); ("UNKNOWN", JInt 1)] = [("a", JBool true)].
Proof. reflexivity. Qed.

(** ** What a run of handler code preserves *)

(** A relation between the world before and after, closed under sequencing,
    is respected by a computation when every run of it stays inside the
    relation, whether it returns or raises. *)
Section Frame.

Variable R : World -> World -> Prop.
Hypothesis R_refl : forall w, R w w.
Hypothesis R_trans : forall w1 w2 w3, R w1 w2 -> R w2 w3 -> R w1 w3.

Local Abbreviation respects := (respects R).

Lemma respects_ret {A} (a : A) : respects (ret a).
Proof. intros w. apply R_refl. Qed.

Lemma respects_raise {A} (e : exn) : respects (@raise A e).
Proof. intros w. apply R_refl. Qed.

Lemma respects_lift {A} (r : result A) : respects (lift r).
Proof. intros w. apply R_refl. Qed.

Lemma respects_get_clients : respects get_clients.
Proof. intros w. apply R_refl. Qed.

Lemma respects_get_process : respects get_process.
Proof. intros w. apply R_refl. Qed.

Lemma respects_bind {A B} (m : M A) (k : A -> M B) :
  respects m -> (forall a, respects (k a)) -> respects (bind m k).
Proof.
  intros Hm Hk w. unfold bind. specialize (Hm w).
  destruct (m w) as [[a|e] w']; simpl in *; [|assumption].
  eapply R_trans; [eassumption | apply Hk].
Qed.

Lemma respects_try_except {A} (m : M A) (h : exn -> option (M A)) :
  respects m ->
  (forall e k, h e = Some k -> respects k) ->
  respects (try_except m h).
Proof.
  intros Hm Hh w. unfold try_except. specialize (Hm w).
  destruct (m w) as [[a|e] w']; simpl in *; [assumption|].
  destruct (h e) as [k|] eqn:E; [|assumption].
  eapply R_trans; [eassumption | apply (Hh e k E)].
Qed.

Lemma respects_try_finally {A} (m : M A) (c : M unit) :
  respects m -> respects c -> respects (try_finally m c).
Proof.
  intros Hm Hc w. unfold try_finally. specialize (Hm w).
  destruct (m w) as [r w']; simpl in *. specialize (Hc w').
  destruct (c w') as [[u|e] w'']; simpl in *;
    eapply R_trans; eassumption.
Qed.

Lemma respects_for_each {A} (xs : list A) (body : A -> M unit) :
  (forall x, respects (body x)) -> respects (for_each xs body).
Proof.
  intros Hb. induction xs as [|x r IH]; simpl.
  - apply respects_ret.
  - apply respects_bind; [apply Hb | intros _; apply IH].
Qed.

(** The primitive effects. *)
Hypothesis R_emit : forall ev, respects (emit ev).
Hypothesis R_set_process : forall p, respects (set_process p).

Ltac frame :=
  repeat first
    [ apply respects_ret | apply respects_raise | apply respects_lift
    | apply respects_get_clients | apply respects_get_process
    | apply R_emit | apply R_set_process
    | apply respects_for_each; intros
    | apply respects_try_finally
    | apply respects_bind; [|intros]
    | apply respects_try_except;
      [| let e := fresh "e" in let k := fresh "k" in
         intros e k;
         try destruct (exn_cls e);
         try destruct (is_Exception e);
         intros Hk; try discriminate Hk; injection Hk as <-]
    | match goal with
      | |- respects (if ?b then _ else _) => destruct b
      | |- respects (match ?x with _ => _ end) => destruct x
      end ].

Lemma respects_send env ws payload : respects (send env ws payload).
Proof. unfold send. frame. Qed.

Lemma respects_run env argv : respects (run env argv).
Proof. unfold run. frame. Qed.

Lemma respects_is_dolphin_running env : respects (is_dolphin_running env).
Proof. unfold is_dolphin_running, scan, run, error. frame. Qed.

Lemma respects_send_to_all env payload : respects (send_to_all env payload).
Proof. unfold send_to_all. frame. apply respects_send. Qed.

Lemma respects_start_dolphin env : respects (start_dolphin env).
Proof.
  unfold start_dolphin, log, error, popen.
  apply respects_bind; [apply respects_is_dolphin_running | intros].
  frame; apply respects_send.
Qed.

Lemma respects_stop_dolphin env : respects (stop_dolphin env).
Proof.
  unfold stop_dolphin, log, error.
  apply respects_bind; [apply respects_is_dolphin_running | intros].
  frame; apply respects_send.
Qed.

Lemma respects_send_command_to_dolphin env player_id command :
  respects (send_command_to_dolphin env player_id command).
Proof. unfold send_command_to_dolphin, run, log, error. frame. Qed.

Lemma respects_status_reply env ws :
  respects (running <- is_dolphin_running env ;;
            send env ws (status_payload running)).
Proof.
  apply respects_bind;
    [apply respects_is_dolphin_running | intros; apply respects_send].
Qed.

Lemma respects_dispatch env ws client_id m :
  respects (dispatch env ws client_id m).
Proof.
  unfold dispatch, log.
  repeat first
    [ apply respects_send_command_to_dolphin
    | apply respects_start_dolphin
    | apply respects_stop_dolphin
    | apply respects_status_reply
    | apply respects_ret | apply respects_lift | apply R_emit
    | apply respects_bind; [|intros]
    | match goal with
      | |- respects (if ?b then _ else _) => destruct b
      end ].
Qed.

Lemma respects_on_message env ws client_id m :
  respects (on_message env ws client_id m).
Proof.
  unfold on_message, error.
  apply respects_try_except; [apply respects_dispatch|].
  intros e k. destruct (exn_cls e); intros Hk; try discriminate Hk;
    injection Hk as <-; apply R_emit.
Qed.

End Frame.

(** ** Traces *)

Lemma extend_extend w evs1 evs2 :
  extend (extend w evs1) evs2 = extend w (evs1 ++ evs2).
Proof. unfold extend. simpl. now rewrite app_assoc. Qed.

Lemma extend_nil w : extend w [] = w.
Proof. destruct w. unfold extend. simpl. now rewrite app_nil_r. Qed.

Lemma emit_extend ev w : emit ev w = (Ok tt, extend w [ev]).
Proof. reflexivity. Qed.

Lemma sends_app evs1 evs2 : sends (evs1 ++ evs2) = sends evs1 ++ sends evs2.
Proof.
  induction evs1 as [|ev r IH]; simpl; [reflexivity|].
  destruct ev; simpl; now rewrite ?IH.
Qed.

Lemma launches_app evs1 evs2 :
  launches (evs1 ++ evs2) = launches evs1 ++ launches evs2.
Proof.
  induction evs1 as [|ev r IH]; simpl; [reflexivity|].
  destruct ev; simpl; now rewrite ?IH.
Qed.


Lemma launches_deliveries payload clients :
  launches (deliveries payload clients) = [].
Proof.
  unfold deliveries. induction clients as [|c r IH]; simpl; auto.
Qed.

(** ** The notification loop *)

Section Broadcast.

Variable env : Env.
Variable payload : json.

Local Abbreviation notify :=
  (fun client : websocket => send env client payload).

Lemma send_delivered ws w :
  ws_send env ws = Ok tt ->
  send env ws payload w = (Ok tt, extend w [EvSend ws payload true]).
Proof. intros H. unfold send. now rewrite H. Qed.

Lemma send_failed ws e w :
  ws_send env ws = Raise e ->
  send env ws payload w = (Raise e, extend w [EvSend ws payload false]).
Proof. intros H. unfold send. now rewrite H. Qed.


(** The first channel that raises ends the loop: the clients before it
    have the message, the ones after it are never tried. *)
Lemma for_each_send_stops before c after e w :
  (forall x, In x before -> ws_send env x = Ok tt) ->
  ws_send env c = Raise e ->
  for_each (before ++ c :: after) notify w
  = (Raise e,
     extend w (deliveries payload before ++ [EvSend c payload false])).
Proof.
  revert w.
  induction before as [|b r IH]; intros w Hok Hfail; simpl.
  - unfold bind at 1. now rewrite (send_failed _ _ Hfail).
  - unfold bind at 1.
    rewrite send_delivered by (apply Hok; now left).
    rewrite IH by (try assumption; intros x Hx; apply Hok; now right).
    now rewrite extend_extend.
Qed.

End Broadcast.

(** ** Detection *)

Lemma scan_world env w :
  snd (scan env w) = extend w [EvRun (scan_argv env)].
Proof.
  unfold scan, scan_argv, run, bind, emit, lift, ret.
  destruct (String.eqb (os_name env) "nt"); simpl;
    match goal with |- context [subprocess_run env ?a] =>
      destruct (subprocess_run env a) end; reflexivity.
Qed.

Lemma scan_result env w w' : fst (scan env w) = fst (scan env w').
Proof.
  unfold scan, run, bind, emit, lift, ret.
  destruct (String.eqb (os_name env) "nt"); simpl;
    match goal with |- context [subprocess_run env ?a] =>
      destruct (subprocess_run env a) end; reflexivity.
Qed.

Lemma scan_eq env w :
  scan env w = (fst (scan env w), extend w [EvRun (scan_argv env)]).
Proof. rewrite <- scan_world. now destruct (scan env w). Qed.

Lemma is_dolphin_running_live env w h :
  dolphin_process w = Some h -> poll env h = None ->
  is_dolphin_running env w = (Ok true, w).
Proof.
  intros Hp Hpoll. unfold is_dolphin_running, bind, get_process.
  now rewrite Hp, Hpoll.
Qed.

Lemma is_dolphin_running_exited env w h rc :
  dolphin_process w = Some h -> poll env h = Some rc ->
  is_dolphin_running env w
  = (Ok false, mkWorld (connected_clients w) None (trace w)).
Proof.
  intros Hp Hpoll. unfold is_dolphin_running, bind, get_process.
  now rewrite Hp, Hpoll.
Qed.

Lemma is_dolphin_running_scanned env w b :
  dolphin_process w = None -> fst (scan env w) = Ok b ->
  is_dolphin_running env w = (Ok b, extend w [EvRun (scan_argv env)]).
Proof.
  intros Hp Hscan. unfold is_dolphin_running, bind, get_process.
  rewrite Hp. unfold try_except. rewrite scan_eq, Hscan. reflexivity.
Qed.

Lemma is_dolphin_running_scan_failed env w e :
  dolphin_process w = None -> fst (scan env w) = Raise e ->
  is_Exception e = true ->
  is_dolphin_running env w
  = (Ok false,
     extend w [EvRun (scan_argv env); EvLog ERROR (LogCheckFailed e)]).
Proof.
  intros Hp Hscan Hexc. unfold is_dolphin_running, bind, get_process.
  rewrite Hp. unfold try_except. rewrite scan_eq, Hscan, Hexc.
  unfold error, bind, ret. rewrite emit_extend, extend_extend. reflexivity.
Qed.

(** The detection touches neither the registry nor the sockets and starts
    nothing; it holds on to a handle it reports as live and holds none when
    it reports that nothing runs. *)
Ltac settle_effect evs :=
  simpl;
  split; [reflexivity|];
  split; [exists evs; rewrite ?app_nil_r; repeat split|];
  split; intros Hr; try discriminate Hr; try injection Hr as ->;
  try assumption; try reflexivity; try congruence.

Lemma is_dolphin_running_effect env w r w1 :
  is_dolphin_running env w = (r, w1) ->
  connected_clients w1 = connected_clients w /\
  (exists evs,
     trace w1 = trace w ++ evs /\ sends evs = [] /\ launches evs = []) /\
  (r = Ok true -> dolphin_process w1 = dolphin_process w) /\
  (r = Ok false -> dolphin_process w1 = None).
Proof.
  destruct (dolphin_process w) as [h|] eqn:Hp.
  - destruct (poll env h) as [rc|] eqn:Hpoll.
    + rewrite (is_dolphin_running_exited _ _ Hp Hpoll). intros [= <- <-].
      settle_effect (@nil event).
    + rewrite (is_dolphin_running_live _ _ Hp Hpoll). intros [= <- <-].
      settle_effect (@nil event).
  - destruct (fst (scan env w)) as [b|e] eqn:Hscan.
    + rewrite (is_dolphin_running_scanned _ _ Hp Hscan). intros [= <- <-].
      settle_effect [EvRun (scan_argv env)].
    + destruct (is_Exception e) eqn:Hexc.
      * rewrite (is_dolphin_running_scan_failed _ _ Hp Hscan Hexc).
        intros [= <- <-].
        settle_effect [EvRun (scan_argv env); EvLog ERROR (LogCheckFailed e)].
      * unfold is_dolphin_running, bind, get_process. rewrite Hp.
        unfold try_except. rewrite scan_eq, Hscan, Hexc. intros [= <- <-].
        settle_effect [EvRun (scan_argv env)].
Qed.

(** ** Traces only grow, and only a connection's own handler writes the
    registry *)

Lemma grows_refl w : grows w w.
Proof. exists []. now rewrite app_nil_r. Qed.

Lemma grows_trans w1 w2 w3 : grows w1 w2 -> grows w2 w3 -> grows w1 w3.
Proof.
  intros [evs1 H1] [evs2 H2]. exists (evs1 ++ evs2).
  now rewrite H2, H1, app_assoc.
Qed.

Lemma grows_emit ev : respects grows (emit ev).
Proof. intros w. now exists [ev]. Qed.

Lemma grows_set_process p : respects grows (set_process p).
Proof. intros w. exists []. simpl. now rewrite app_nil_r. Qed.

Lemma same_clients_trans w1 w2 w3 :
  same_clients w1 w2 -> same_clients w2 w3 -> same_clients w1 w3.
Proof. unfold same_clients. congruence. Qed.

Lemma same_clients_emit ev : respects same_clients (emit ev).
Proof. intros w. reflexivity. Qed.

Lemma same_clients_set_process p : respects same_clients (set_process p).
Proof. intros w. reflexivity. Qed.

Create HintDb frame.
#[local] Hint Resolve grows_refl grows_trans grows_emit grows_set_process
  same_clients_trans same_clients_emit same_clients_set_process : frame.
#[local] Hint Extern 1 (same_clients ?w ?w) => reflexivity : frame.

Lemma send_to_all_grows env payload :
  respects grows (send_to_all env payload).
Proof. apply respects_send_to_all; eauto with frame. Qed.

Lemma on_message_same_clients env ws client_id m :
  respects same_clients (on_message env ws client_id m).
Proof. apply respects_on_message; eauto with frame. Qed.

Lemma start_dolphin_same_clients env :
  respects same_clients (start_dolphin env).
Proof. apply respects_start_dolphin; eauto with frame. Qed.

(** ** Starting *)

(** When the detection answers [False], [start_dolphin] logs the attempt
    and calls [Popen] on the configured path. *)
Lemma start_dolphin_attempts env w w1 :
  is_dolphin_running env w = (Ok false, w1) ->
  exists later,
    trace (snd (start_dolphin env w))
    = trace w1 ++
      EvLog INFO (LogStarting DOLPHIN_PATH) :: EvPopen [DOLPHIN_PATH] :: later.
Proof.
  intros Hrun. unfold start_dolphin, bind at 1. rewrite Hrun.
  unfold try_except, bind at 1, log at 1. rewrite emit_extend.
  unfold bind at 1, popen, bind at 1. rewrite emit_extend, extend_extend.
  unfold lift.
  set (w2 := extend w1 [EvLog INFO (LogStarting DOLPHIN_PATH);
                        EvPopen [DOLPHIN_PATH]]).
  assert (Hw2 : forall w3, grows w2 w3 ->
            exists later,
              trace w3
              = trace w1 ++
                EvLog INFO (LogStarting DOLPHIN_PATH)
                :: EvPopen [DOLPHIN_PATH] :: later).
  { intros w3 [evs Hevs]. exists evs. rewrite Hevs. unfold w2. simpl.
    now rewrite <- app_assoc. }
  destruct (subprocess_Popen env [DOLPHIN_PATH]) as [p|e].
  - apply Hw2. unfold bind, set_process, log. rewrite emit_extend.
    now exists [EvLog INFO LogStarted].
  - assert (Hk : forall line payload,
              grows w2 (snd ((error line ;; send_to_all env payload) w2))).
    { intros line payload.
      apply (@respects_bind grows grows_trans); intros;
        [apply grows_emit | apply send_to_all_grows]. }
    apply Hw2.
    destruct (exn_cls e); try apply Hk;
      destruct (is_Exception e); try apply Hk; apply grows_refl.
Qed.

(** C10.  With no handle held, a process-table scan that raises makes
    [is_dolphin_running] log the failure and answer [False]; a
    [start_dolphin] called under these conditions therefore goes on to
    launch the executable. *)
Theorem failed_scan_reports_not_running :
  forall (env : Env) (w : World) (e : exn),
    dolphin_process w = None ->
    fst (scan env w) = Raise e ->
    is_Exception e = true ->
    is_dolphin_running env w
    = (Ok false,
       extend w [EvRun (scan_argv env); EvLog ERROR (LogCheckFailed e)]) /\
    exists later,
      launches (trace (snd (start_dolphin env w)))
      = launches (trace w) ++ [DOLPHIN_PATH] :: later.
Proof.
  intros env w e Hp Hscan Hexc.
  pose proof (is_dolphin_running_scan_failed _ _ Hp Hscan Hexc) as Hrun.
  split; [assumption|].
  destruct (start_dolphin_attempts _ _ Hrun) as [later Hlater].
  exists (launches later). rewrite Hlater. simpl.
  rewrite !launches_app. simpl. now rewrite app_nil_r.
Qed.

Lemma failed_scan_reports_not_running_witness :
  is_dolphin_running (with_failing_scan quiet_env) two_sessions
  = (Ok false,
     extend two_sessions
       [EvRun ["pgrep"; "-x"; "dolphin-emu"];
        EvLog ERROR
          (LogCheckFailed
             (Exn FileNotFoundError
                "No such file or directory: 'pgrep'"))])
  /\ exists later,
       launches (trace (snd (start_dolphin (with_failing_scan quiet_env)
                               two_sessions)))
       = launches (trace two_sessions) ++ [DOLPHIN_PATH] :: later.
Proof.
  apply (@failed_scan_reports_not_running (with_failing_scan quiet_env)
           two_sessions
           (Exn FileNotFoundError "No such file or directory: 'pgrep'"));
    reflexivity.
Defined.

(** C8.  Whenever [is_dolphin_running] answers [True], [start_dolphin]
    returns after logging that the emulator already runs: the process handle
    and the registry are the ones it found, nothing is launched and nothing
    is sent. *)
Theorem start_dolphin_when_running :
  forall (env : Env) (w w1 : World),
    is_dolphin_running env w = (Ok true, w1) ->
    start_dolphin env w = (Ok tt, extend w1 [EvLog INFO LogAlreadyRunning]) /\
    dolphin_process (snd (start_dolphin env w)) = dolphin_process w /\
    connected_clients (snd (start_dolphin env w)) = connected_clients w /\
    launches (trace (snd (start_dolphin env w))) = launches (trace w) /\
    sends (trace (snd (start_dolphin env w))) = sends (trace w).
Proof.
  intros env w w1 Hrun.
  assert (Hstart : start_dolphin env w
                   = (Ok tt, extend w1 [EvLog INFO LogAlreadyRunning])).
  { unfold start_dolphin, bind. now rewrite Hrun. }
  destruct (is_dolphin_running_effect _ _ Hrun)
    as (Hcs & (evs & Htrace & Hsends & Hlaunches) & Hkeep & _).
  rewrite Hstart. simpl. repeat split.
  - now apply Hkeep.
  - assumption.
  - rewrite Htrace, !launches_app, Hlaunches. simpl. now rewrite !app_nil_r.
  - rewrite Htrace, !sends_app, Hsends. simpl. now rewrite !app_nil_r.
Qed.

Lemma start_dolphin_when_running_witness :
  start_dolphin quiet_env
    {| connected_clients := [("u-1", 1)];
       dolphin_process := Some 100;
       trace := [] |}
  = (Ok tt,
     {| connected_clients := [("u-1", 1)];
        dolphin_process := Some 100;
        trace := [EvLog INFO LogAlreadyRunning] |}).
Proof.
  apply (@start_dolphin_when_running quiet_env
           {| connected_clients := [("u-1", 1)];
              dolphin_process := Some 100;
              trace := [] |}
           {| connected_clients := [("u-1", 1)];
              dolphin_process := Some 100;
              trace := [] |}).
  reflexivity.
Defined.

(** ** A missing executable *)



Lemma send_to_all_eq env payload w :
  send_to_all env payload w
  = for_each (dict_values (connected_clients w))
      (fun client => send env client payload) w.
Proof. reflexivity. Qed.


Lemma start_dolphin_not_found env w w1 e :
  is_dolphin_running env w = (Ok false, w1) ->
  subprocess_Popen env [DOLPHIN_PATH] = Raise e ->
  exn_cls e = FileNotFoundError ->
  start_dolphin env w
  = send_to_all env not_found_notice
      (extend w1 [EvLog INFO (LogStarting DOLPHIN_PATH);
                  EvPopen [DOLPHIN_PATH];
                  EvLog ERROR (LogNotFound DOLPHIN_PATH)]).
Proof.
  intros Hrun Hpopen Hcls. unfold start_dolphin, bind at 1. rewrite Hrun.
  unfold try_except, bind at 1, log at 1. rewrite emit_extend.
  unfold bind at 1, popen, bind at 1. rewrite emit_extend, extend_extend.
  unfold lift. rewrite Hpopen, Hcls.
  unfold bind at 1, error. now rewrite emit_extend, extend_extend.
Qed.




(** ** Notifying every session *)




(** ** Frames *)

Section Dispatch.

Variables (env : Env) (ws : websocket) (client_id : string).
Variable d : dict json.

Local Abbreviation received :=
  (EvLog INFO (LogReceived ws client_id (JDict d))).

(** An object on which the test of line 162 succeeds goes to the input
    branch. *)
Lemma dispatch_controller_input w :
  is_controller_input d = true ->
  dispatch env ws client_id (Document (JDict d)) w
  = (input <- lift (Py.dict_getitem "input" d) ;;
     items <- lift (Py.items input) ;;
     send_command_to_dolphin env client_id (remapped_data items))
      (extend w [received]).
Proof.
  unfold is_controller_input. intros H.
  unfold dispatch, bind at 1, lift at 1, json_loads.
  unfold bind at 1, DEBUG_MODE, log at 1. rewrite emit_extend.
  unfold bind at 1, lift at 1, Py.contains, dict_mem.
  destruct (dict_get "type" d) as [ty|] eqn:Hty; [|discriminate].
  unfold bind at 1, bind at 1, lift at 1, Py.getitem, Py.dict_getitem.
  rewrite Hty. unfold ret at 1. rewrite H. reflexivity.
Qed.

(** An object on which it fails goes to the command branch. *)
Lemma dispatch_command w :
  is_controller_input d = false ->
  dispatch env ws client_id (Document (JDict d)) w
  = match dict_get "command" d with
    | None => ret tt
    | Some command =>
        if Py.eq_str command "start_dolphin" then start_dolphin env
        else if Py.eq_str command "stop_dolphin" then stop_dolphin env
        else if Py.eq_str command "status" then
          running <- is_dolphin_running env ;;
          send env ws (status_payload running)
        else ret tt
    end (extend w [received]).
Proof.
  unfold is_controller_input. intros H.
  unfold dispatch, bind at 1, lift at 1, json_loads.
  unfold bind at 1, DEBUG_MODE, log at 1. rewrite emit_extend.
  unfold bind at 1, lift at 1, Py.contains, dict_mem.
  assert (Hcmd : forall w0,
    (has_command <- lift (Ok match dict_get "command" d with
                             | Some _ => true
                             | None => false
                             end) ;;
     (if has_command : bool
      then
        command <- lift (Py.getitem (JDict d) "command") ;;
        (if Py.eq_str command "start_dolphin" then start_dolphin env
         else if Py.eq_str command "stop_dolphin" then stop_dolphin env
         else if Py.eq_str command "status"
              then running <- is_dolphin_running env ;;
                   send env ws (status_payload running)
              else ret tt)
      else ret tt)) w0
    = match dict_get "command" d with
      | None => ret tt
      | Some command =>
          if Py.eq_str command "start_dolphin" then start_dolphin env
          else if Py.eq_str command "stop_dolphin" then stop_dolphin env
          else if Py.eq_str command "status" then
            running <- is_dolphin_running env ;;
            send env ws (status_payload running)
          else ret tt
      end w0).
  { intros w0. unfold bind at 1, lift at 1, Py.getitem, Py.dict_getitem.
    destruct (dict_get "command" d) as [c|]; reflexivity. }
  destruct (dict_get "type" d) as [ty|] eqn:Hty.
  - unfold bind at 1, bind at 1, lift at 1, Py.getitem, Py.dict_getitem.
    rewrite Hty. unfold ret at 1. rewrite H. apply Hcmd.
  - unfold bind at 1, ret at 1. apply Hcmd.
Qed.

End Dispatch.




(** A decoded frame that is not an object can end the handler: the
    [TypeError] of ["type" in 5] is not among the exceptions the loop
    catches. *)
Remark non_object_frame_ends_handler :
  on_message quiet_env 3 "u-9" (Document (JInt 5)) two_sessions
  = (Raise (Exn TypeError "argument is not iterable"),
     extend two_sessions [EvLog INFO (LogReceived 3 "u-9" (JInt 5))]).
Proof. reflexivity. Qed.

(** ** Status queries *)

Lemma is_dolphin_running_extend env w evs :
  fst (is_dolphin_running env (extend w evs))
  = fst (is_dolphin_running env w).
Proof.
  unfold is_dolphin_running, bind, get_process. cbn [extend dolphin_process].
  destruct (dolphin_process w) as [h|].
  - destruct (poll env h); reflexivity.
  - unfold try_except.
    rewrite (scan_eq env (extend w evs)), (scan_eq env w).
    rewrite (scan_result env (extend w evs) w).
    destruct (fst (scan env w)) as [b|e]; [reflexivity|].
    destruct (is_Exception e); reflexivity.
Qed.




(** ** Capacity *)






(** * Further properties of the server *)

(** ** Stopping *)

Lemma terminations_app evs1 evs2 :
  terminations (evs1 ++ evs2) = terminations evs1 ++ terminations evs2.
Proof.
  induction evs1 as [|ev r IH]; simpl; [reflexivity|].
  destruct ev; simpl; now rewrite ?IH.
Qed.

Lemma runs_app evs1 evs2 : runs (evs1 ++ evs2) = runs evs1 ++ runs evs2.
Proof.
  induction evs1 as [|ev r IH]; simpl; [reflexivity|].
  destruct ev; simpl; now rewrite ?IH.
Qed.

(** When the detection itself raises, it was scanning, so no handle is
    held. *)
Lemma is_dolphin_running_raises env w e w1 :
  is_dolphin_running env w = (Raise e, w1) -> dolphin_process w1 = None.
Proof.
  unfold is_dolphin_running, bind, get_process.
  destruct (dolphin_process w) as [h|] eqn:Hp.
  - destruct (poll env h); discriminate.
  - unfold try_except. rewrite scan_eq.
    destruct (fst (scan env w)) as [b|e0]; [discriminate|].
    destruct (is_Exception e0).
    + unfold error, bind, ret. rewrite emit_extend. discriminate.
    + intros [= <- <-]. exact Hp.
Qed.

(** X1.  However [stop_dolphin] ends (nothing was running, the process was
    stopped, terminating failed, a notification could not be sent), no
    process handle is held afterwards. *)
Theorem stop_dolphin_drops_handle :
  forall (env : Env) (w : World),
    dolphin_process (snd (stop_dolphin env w)) = None.
Proof.
  intros env w. unfold stop_dolphin, bind at 1.
  destruct (is_dolphin_running env w) as [[[|]|e] w1] eqn:Hrun.
  - cbn [negb]. unfold try_finally.
    match goal with |- context [try_except ?b ?h w1] =>
      destruct (try_except b h w1) as [r w2] end.
    reflexivity.
  - destruct (is_dolphin_running_effect _ _ Hrun) as (_ & _ & _ & Hnone).
    cbn [negb]. unfold log. rewrite emit_extend. now apply Hnone.
  - simpl. now apply (is_dolphin_running_raises _ _ Hrun).
Qed.

(** X2.  When the detection answers [False], [stop_dolphin] only logs that
    nothing runs: no process is terminated, nothing is sent and the registry
    is untouched. *)
Theorem stop_dolphin_when_not_running :
  forall (env : Env) (w w1 : World),
    is_dolphin_running env w = (Ok false, w1) ->
    stop_dolphin env w = (Ok tt, extend w1 [EvLog INFO LogNotRunning]) /\
    connected_clients (snd (stop_dolphin env w)) = connected_clients w /\
    terminations (trace (snd (stop_dolphin env w))) = terminations (trace w) /\
    sends (trace (snd (stop_dolphin env w))) = sends (trace w).
Proof.
  intros env w w1 Hrun.
  assert (Hstop : stop_dolphin env w
                  = (Ok tt, extend w1 [EvLog INFO LogNotRunning])).
  { unfold stop_dolphin, bind. now rewrite Hrun. }
  rewrite Hstop. cbn [snd extend connected_clients trace].
  unfold is_dolphin_running, bind, get_process in Hrun.
  destruct (dolphin_process w) as [h|] eqn:Hp.
  - destruct (poll env h); [|discriminate].
    injection Hrun as <-. simpl.
    rewrite terminations_app, sends_app. simpl.
    now rewrite !app_nil_r.
  - unfold try_except in Hrun. rewrite scan_eq in Hrun.
    destruct (fst (scan env w)) as [b|e].
    + injection Hrun as -> <-. simpl.
      rewrite !terminations_app, !sends_app. simpl.
      now rewrite !app_nil_r.
    + destruct (is_Exception e); [|discriminate].
      unfold error, bind, ret in Hrun. rewrite emit_extend in Hrun.
      injection Hrun as <-. simpl.
      rewrite !terminations_app, !sends_app. simpl.
      now rewrite !app_nil_r.
Qed.

Lemma stop_dolphin_when_not_running_witness :
  stop_dolphin quiet_env two_sessions
  = (Ok tt,
     extend two_sessions
       [EvRun ["pgrep"; "-x"; "dolphin-emu"]; EvLog INFO LogNotRunning]).
Proof.
  apply (@stop_dolphin_when_not_running quiet_env two_sessions
           (extend two_sessions [EvRun ["pgrep"; "-x"; "dolphin-emu"]])).
  reflexivity.
Defined.

(** The run of [stop_dolphin] on a live process launched here. *)
Lemma stop_dolphin_live env w h :
  dolphin_process w = Some h ->
  poll env h = None ->
  terminate env h = Ok tt ->
  wait env h = Ok tt ->
  stop_dolphin env w
  = (Ok tt,
     {| connected_clients := connected_clients w;
        dolphin_process := None;
        trace := trace w ++
                 [EvLog INFO LogStopping; EvTerminate h; EvWait h;
                  EvLog INFO LogStopped] |}).
Proof.
  intros Hp Hpoll Hterm Hwait.
  unfold stop_dolphin, bind at 1.
  rewrite (is_dolphin_running_live _ _ Hp Hpoll). cbn [negb].
  unfold try_finally, try_except, bind, log, get_process, lift, set_process.
  rewrite !emit_extend. cbn [extend dolphin_process]. rewrite Hp.
  rewrite !emit_extend. rewrite Hterm, Hwait.
  unfold extend. simpl. rewrite <- !app_assoc. reflexivity.
Qed.

(** X3.  Stopping a process that was launched here and is alive: it is
    terminated, then waited for, nobody is notified, the registry is
    untouched and the handle is dropped. *)
Theorem stop_dolphin_terminates_held_process :
  forall (env : Env) (w : World) (h : Popen),
    dolphin_process w = Some h ->
    poll env h = None ->
    terminate env h = Ok tt ->
    wait env h = Ok tt ->
    stop_dolphin env w
    = (Ok tt,
       {| connected_clients := connected_clients w;
          dolphin_process := None;
          trace := trace w ++
                   [EvLog INFO LogStopping; EvTerminate h; EvWait h;
                    EvLog INFO LogStopped] |}) /\
    sends (trace (snd (stop_dolphin env w))) = sends (trace w).
Proof.
  intros env w h Hp Hpoll Hterm Hwait.
  rewrite (stop_dolphin_live _ _ Hp Hpoll Hterm Hwait).
  split; [reflexivity|].
  cbn [snd trace]. rewrite sends_app. simpl. now rewrite app_nil_r.
Qed.

Lemma stop_dolphin_terminates_held_process_witness :
  stop_dolphin quiet_env
    {| connected_clients := [("u-1", 1)];
       dolphin_process := Some 100;
       trace := [] |}
  = (Ok tt,
     {| connected_clients := [("u-1", 1)];
        dolphin_process := None;
        trace := [EvLog INFO LogStopping; EvTerminate 100; EvWait 100;
                  EvLog INFO LogStopped] |}).
Proof.
  apply (proj1 (@stop_dolphin_terminates_held_process quiet_env
                  {| connected_clients := [("u-1", 1)];
                     dolphin_process := Some 100;
                     trace := [] |} 100 eq_refl eq_refl eq_refl eq_refl)).
Defined.

(** X4.  A process found only by the scan (no handle is held) is not
    stopped by [stop_dolphin]: it logs "stopping" and "stopped" and returns
    normally without terminating anything, and a detection made right after
    under the same conditions still answers [True]. *)
Theorem stop_dolphin_spares_external_process :
  forall (env : Env) (w : World),
    dolphin_process w = None ->
    fst (scan env w) = Ok true ->
    stop_dolphin env w
    = (Ok tt,
       extend w [EvRun (scan_argv env); EvLog INFO LogStopping;
                 EvLog INFO LogStopped]) /\
    terminations (trace (snd (stop_dolphin env w))) = terminations (trace w) /\
    fst (is_dolphin_running env (snd (stop_dolphin env w))) = Ok true.
Proof.
  intros env w Hp Hscan.
  assert (Hstop : stop_dolphin env w
                  = (Ok tt,
                     extend w [EvRun (scan_argv env); EvLog INFO LogStopping;
                               EvLog INFO LogStopped])).
  { unfold stop_dolphin, bind at 1.
    rewrite (is_dolphin_running_scanned _ _ Hp Hscan). cbn [negb].
    unfold try_finally, try_except, bind, log, get_process, lift, set_process.
    rewrite !emit_extend. cbn [extend dolphin_process]. rewrite Hp.
    unfold ret. rewrite !emit_extend.
    unfold extend. simpl. rewrite Hp, <- !app_assoc. reflexivity. }
  rewrite Hstop. cbn [snd]. repeat split.
  - simpl. rewrite terminations_app. simpl. now rewrite app_nil_r.
  - rewrite is_dolphin_running_extend.
    now rewrite (is_dolphin_running_scanned _ _ Hp Hscan).
Qed.

Lemma stop_dolphin_spares_external_process_witness :
  fst (is_dolphin_running (with_scan_output "4242" quiet_env)
         (snd (stop_dolphin (with_scan_output "4242" quiet_env)
                 two_sessions)))
  = Ok true.
Proof.
  apply (@stop_dolphin_spares_external_process
           (with_scan_output "4242" quiet_env) two_sessions);
    reflexivity.
Defined.



(** ** Starting *)

(** The run of [start_dolphin] when nothing runs and the launch succeeds. *)
Lemma start_dolphin_launched env w w1 p :
  is_dolphin_running env w = (Ok false, w1) ->
  subprocess_Popen env [DOLPHIN_PATH] = Ok p ->
  start_dolphin env w
  = (Ok tt,
     {| connected_clients := connected_clients w;
        dolphin_process := Some p;
        trace := trace w1 ++
                 [EvLog INFO (LogStarting DOLPHIN_PATH);
                  EvPopen [DOLPHIN_PATH]; EvLog INFO LogStarted] |}).
Proof.
  intros Hrun Hpopen.
  destruct (is_dolphin_running_effect _ _ Hrun) as (Hcs & _).
  unfold start_dolphin, bind at 1. rewrite Hrun.
  unfold try_except, bind at 1, log at 1. rewrite emit_extend.
  unfold bind at 1, popen, bind at 1. rewrite emit_extend, extend_extend.
  unfold lift. rewrite Hpopen.
  unfold bind, set_process, log. rewrite emit_extend.
  unfold extend. simpl. rewrite Hcs, <- !app_assoc. reflexivity.
Qed.

(** X6.  When the detection answers [False] and the launch succeeds,
    [start_dolphin] records the new handle, logs the start, and notifies
    nobody. *)
Theorem start_dolphin_records_handle :
  forall (env : Env) (w w1 : World) (p : Popen),
    is_dolphin_running env w = (Ok false, w1) ->
    subprocess_Popen env [DOLPHIN_PATH] = Ok p ->
    start_dolphin env w
    = (Ok tt,
       {| connected_clients := connected_clients w;
          dolphin_process := Some p;
          trace := trace w1 ++
                   [EvLog INFO (LogStarting DOLPHIN_PATH);
                    EvPopen [DOLPHIN_PATH]; EvLog INFO LogStarted] |}) /\
    sends (trace (snd (start_dolphin env w))) = sends (trace w).
Proof.
  intros env w w1 p Hrun Hpopen.
  destruct (is_dolphin_running_effect _ _ Hrun)
    as (Hcs & (evs & Htrace & Hsends & _) & _).
  rewrite (start_dolphin_launched _ _ Hrun Hpopen). split; [reflexivity|].
  cbn [snd trace]. rewrite Htrace, !sends_app, Hsends. simpl.
  now rewrite !app_nil_r.
Qed.

Lemma start_dolphin_records_handle_witness :
  dolphin_process (snd (start_dolphin quiet_env two_sessions)) = Some 100.
Proof.
  rewrite (proj1 (@start_dolphin_records_handle quiet_env two_sessions
                    (extend two_sessions [EvRun ["pgrep"; "-x"; "dolphin-emu"]])
                    100 eq_refl eq_refl)).
  reflexivity.
Defined.

(** X7.  Two calls in a row launch once: after a successful start whose
    process stays alive, a second [start_dolphin] keeps the handle and only
    logs that the emulator already runs. *)
Theorem start_dolphin_twice_launches_once :
  forall (env : Env) (w w1 : World) (p : Popen),
    is_dolphin_running env w = (Ok false, w1) ->
    subprocess_Popen env [DOLPHIN_PATH] = Ok p ->
    poll env p = None ->
    let w' := snd (start_dolphin env w) in
    start_dolphin env w' = (Ok tt, extend w' [EvLog INFO LogAlreadyRunning]) /\
    dolphin_process (snd (start_dolphin env w')) = Some p /\
    launches (trace (snd (start_dolphin env w')))
    = launches (trace w) ++ [[DOLPHIN_PATH]].
Proof.
  intros env w w1 p Hrun Hpopen Hpoll w'.
  destruct (is_dolphin_running_effect _ _ Hrun)
    as (_ & (evs & Htrace & _ & Hlaunches) & _).
  pose proof (start_dolphin_launched _ _ Hrun Hpopen) as Hfirst.
  assert (Hp' : dolphin_process w' = Some p)
    by (unfold w'; now rewrite Hfirst).
  assert (Hsecond : start_dolphin env w'
                    = (Ok tt, extend w' [EvLog INFO LogAlreadyRunning])).
  { unfold start_dolphin, bind at 1.
    now rewrite (is_dolphin_running_live _ _ Hp' Hpoll). }
  rewrite Hsecond. cbn [snd extend dolphin_process trace].
  repeat split; [exact Hp'|].
  unfold w'. rewrite Hfirst. cbn [snd trace].
  rewrite Htrace, !launches_app, Hlaunches. simpl.
  now rewrite !app_nil_r.
Qed.

Lemma start_dolphin_twice_launches_once_witness :
  launches
    (trace (snd (start_dolphin quiet_env
                   (snd (start_dolphin quiet_env two_sessions)))))
  = [[DOLPHIN_PATH]].
Proof.
  apply (@start_dolphin_twice_launches_once quiet_env two_sessions
           (extend two_sessions [EvRun ["pgrep"; "-x"; "dolphin-emu"]])
           100 eq_refl eq_refl eq_refl).
Defined.

(** X8.  Start followed by stop: a process launched here and still alive is
    the one that gets terminated and waited for, and the handle is [None]
    again afterwards. *)
Theorem start_then_stop_round_trip :
  forall (env : Env) (w w1 : World) (p : Popen),
    is_dolphin_running env w = (Ok false, w1) ->
    subprocess_Popen env [DOLPHIN_PATH] = Ok p ->
    poll env p = None ->
    terminate env p = Ok tt ->
    wait env p = Ok tt ->
    let w' := snd (start_dolphin env w) in
    fst (stop_dolphin env w') = Ok tt /\
    dolphin_process (snd (stop_dolphin env w')) = None /\
    connected_clients (snd (stop_dolphin env w')) = connected_clients w /\
    terminations (trace (snd (stop_dolphin env w')))
    = terminations (trace w') ++ [p].
Proof.
  intros env w w1 p Hrun Hpopen Hpoll Hterm Hwait w'.
  assert (Hp' : dolphin_process w' = Some p /\
                connected_clients w' = connected_clients w).
  { unfold w'. rewrite (start_dolphin_launched _ _ Hrun Hpopen).
    now split. }
  destruct Hp' as [Hp' Hcs'].
  rewrite (stop_dolphin_live _ _ Hp' Hpoll Hterm Hwait).
  cbn [fst snd dolphin_process connected_clients trace].
  repeat split; [assumption|].
  rewrite terminations_app. reflexivity.
Qed.

Lemma start_then_stop_round_trip_witness :
  dolphin_process
    (snd (stop_dolphin quiet_env
            (snd (start_dolphin quiet_env two_sessions)))) = None
  /\ terminations
       (trace (snd (stop_dolphin quiet_env
                      (snd (start_dolphin quiet_env two_sessions)))))
     = [100].
Proof.
  destruct (@start_then_stop_round_trip quiet_env two_sessions
              (extend two_sessions [EvRun ["pgrep"; "-x"; "dolphin-emu"]])
              100 eq_refl eq_refl eq_refl eq_refl eq_refl)
    as (_ & Hnone & _ & Hterm).
  split; [exact Hnone | exact Hterm].
Defined.



(** ** Detection *)

(** X10.  A stale handle hides an external process for one query: with a
    handle whose process has exited, the detection answers [False] without
    scanning and clears the handle, so that the same question asked again
    under the same conditions is answered by the scan. *)
Theorem stale_handle_answers_before_scan :
  forall (env : Env) (w : World) (h : Popen) (rc : Z) (b : bool),
    dolphin_process w = Some h ->
    poll env h = Some rc ->
    fst (scan env w) = Ok b ->
    let w1 := snd (is_dolphin_running env w) in
    fst (is_dolphin_running env w) = Ok false /\
    runs (trace w1) = runs (trace w) /\
    dolphin_process w1 = None /\
    fst (is_dolphin_running env w1) = Ok b /\
    runs (trace (snd (is_dolphin_running env w1)))
    = runs (trace w) ++ [scan_argv env].
Proof.
  intros env w h rc b Hp Hpoll Hscan w1. unfold w1.
  rewrite (is_dolphin_running_exited _ _ Hp Hpoll). cbn [fst snd].
  set (w0 := mkWorld _ _ _).
  assert (Hp0 : dolphin_process w0 = None) by reflexivity.
  assert (Hscan0 : fst (scan env w0) = Ok b)
    by (now rewrite (scan_result env w0 w)).
  rewrite (is_dolphin_running_scanned _ _ Hp0 Hscan0).
  repeat split. cbn [snd extend trace]. unfold w0. cbn [trace].
  now rewrite runs_app.
Qed.

Lemma stale_handle_answers_before_scan_witness :
  let env := with_exit_code 0 (with_scan_output "4242" quiet_env) in
  let w := {| connected_clients := [];
              dolphin_process := Some 100;
              trace := [] |} in
  fst (is_dolphin_running env w) = Ok false /\
  fst (is_dolphin_running env (snd (is_dolphin_running env w))) = Ok true.
Proof.
  intros env w.
  destruct (@stale_handle_answers_before_scan env w 100 0%Z true
              eq_refl eq_refl eq_refl) as (H1 & _ & _ & H2 & _).
  split; [exact H1 | exact H2].
Defined.

(** ** White space and the POSIX scan *)

Lemma lstrip_empty_iff s : PyStr.lstrip s = "" <-> all_space s = true.
Proof.
  unfold all_space.
  induction s as [|c r IH]; simpl; [tauto|].
  destruct (PyStr.is_space c); simpl; [exact IH|].
  split; discriminate.
Qed.

Lemma all_space_lstrip s : all_space (PyStr.lstrip s) = all_space s.
Proof.
  unfold all_space.
  induction s as [|c r IH]; simpl; [reflexivity|].
  destruct (PyStr.is_space c) eqn:E; simpl; [exact IH | now rewrite E].
Qed.

Lemma forallb_rev {A} (f : A -> bool) (l : list A) :
  forallb f (rev l) = forallb f l.
Proof.
  induction l as [|x r IH]; simpl; [reflexivity|].
  rewrite forallb_app, IH. simpl. rewrite andb_true_r. apply andb_comm.
Qed.

Lemma all_space_reverse s : all_space (PyStr.reverse s) = all_space s.
Proof.
  unfold all_space, PyStr.reverse.
  now rewrite list_ascii_of_string_of_list_ascii, forallb_rev.
Qed.

Lemma reverse_empty_iff s : PyStr.reverse s = "" <-> s = "".
Proof.
  unfold PyStr.reverse. split.
  - intros H.
    assert (Hl : rev (list_ascii_of_string s) = [])
      by (rewrite <- (list_ascii_of_string_of_list_ascii (rev _)), H;
          reflexivity).
    destruct s as [|c r]; [reflexivity|]. simpl in Hl.
    destruct (rev (list_ascii_of_string r)); discriminate Hl.
  - intros ->. reflexivity.
Qed.

Lemma strip_empty_iff s : PyStr.strip s = "" <-> all_space s = true.
Proof.
  unfold PyStr.strip, PyStr.rstrip.
  rewrite reverse_empty_iff, lstrip_empty_iff, all_space_reverse,
    all_space_lstrip.
  tauto.
Qed.

(** X11.  Off Windows the scan runs [pgrep -x dolphin-emu] and reports a
    process exactly when the output holds a character that is not white
    space; an output of blanks and newlines counts as no process. *)
Theorem posix_scan_decision :
  forall (env : Env) (w : World) (out : string),
    os_name env <> "nt" ->
    subprocess_run env ["pgrep"; "-x"; "dolphin-emu"] = Ok out ->
    scan env w
    = (Ok (negb (all_space out)),
       extend w [EvRun ["pgrep"; "-x"; "dolphin-emu"]]).
Proof.
  intros env w out Hos Hrun.
  apply String.eqb_neq in Hos.
  unfold scan, run, bind, lift, ret. rewrite Hos, emit_extend, Hrun.
  do 2 f_equal. f_equal.
  destruct (all_space out) eqn:Hsp.
  - apply strip_empty_iff in Hsp. rewrite Hsp. reflexivity.
  - apply String.eqb_neq. intros Hempty.
    apply strip_empty_iff in Hempty. congruence.
Qed.

Lemma posix_scan_decision_witness :
  let nl := String (ascii_of_nat 10) "" in
  fst (scan (with_scan_output (" " ++ nl) quiet_env) two_sessions) = Ok false
  /\ fst (scan (with_scan_output ("4242" ++ nl) quiet_env) two_sessions)
     = Ok true.
Proof.
  intros nl. split.
  - rewrite (@posix_scan_decision (with_scan_output (" " ++ nl) quiet_env)
               two_sessions (" " ++ nl)); [reflexivity | discriminate |
               reflexivity].
  - rewrite (@posix_scan_decision (with_scan_output ("4242" ++ nl) quiet_env)
               two_sessions ("4242" ++ nl)); [reflexivity | discriminate |
               reflexivity].
Defined.

(** ** The two vocabularies *)

Lemma remapped_keys_are_targets items target v :
  dict_get target (remapped_data items) = Some v ->
  In target (dict_values INPUT_MAP).
Proof.
  intros H. unfold remapped_data in H.
  destruct (remap_fold_sound _ _ _ H) as [Hnil | (k & Hk & _)];
    [discriminate|].
  apply dict_get_In in Hk. unfold dict_values.
  change target with (snd (k, target)). now apply in_map.
Qed.

Lemma targets_are_not_sources target :
  In target (dict_values INPUT_MAP) -> dict_get target INPUT_MAP = None.
Proof.
  unfold INPUT_MAP. simpl. intros Hin.
  repeat (destruct Hin as [<-|Hin]; [reflexivity|]). destruct Hin.
Qed.

Lemma remap_fold_unknown l acc :
  (forall k v, In (k, v) l -> dict_get k INPUT_MAP = None) ->
  fold_left remap_step l acc = acc.
Proof.
  revert acc.
  induction l as [|[k0 v0] r IH]; intros acc H; cbn [fold_left];
    [reflexivity|].
  replace (remap_step acc (k0, v0)) with acc.
  - apply IH. intros k v Hin. apply (H k v). now right.
  - unfold remap_step. rewrite (H k0 v0); [reflexivity | now left].
Qed.

(** X12.  The keys of a remapped frame are target names of [INPUT_MAP], and
    no target name is a source name: remapping a remapped frame yields the
    empty mapping. *)
Theorem remapped_data_leaves_source_vocabulary :
  forall items : list (string * json),
    (forall target,
       In target (dict_keys (remapped_data items)) ->
       In target (dict_values INPUT_MAP) /\
       dict_get target INPUT_MAP = None) /\
    remapped_data (remapped_data items) = [].
Proof.
  intros items.
  assert (Hkeys : forall target,
            In target (dict_keys (remapped_data items)) ->
            In target (dict_values INPUT_MAP)).
  { intros target Hin.
    destruct (dict_get target (remapped_data items)) as [v|] eqn:Hget.
    - now apply (remapped_keys_are_targets _ _ Hget).
    - apply dict_get_None_keys in Hget. contradiction. }
  split.
  - intros target Hin. split; [now apply Hkeys|].
    now apply targets_are_not_sources, Hkeys.
  - unfold remapped_data at 1. apply remap_fold_unknown.
    intros k v Hin. apply targets_are_not_sources, Hkeys.
    unfold dict_keys. change k with (fst (k, v)). now apply in_map.
Qed.

Lemma remapped_data_leaves_source_vocabulary_witness :
  In "a" (dict_values INPUT_MAP) /\ dict_get "a" INPUT_MAP = None.
Proof.
  apply (proj1 (remapped_data_leaves_source_vocabulary [("A", JBool true)])).
  simpl. now left.
Defined.

Lemma remap_fold_len items acc :
  dict_wf items ->
  (forall k v target,
     In (k, v) items -> dict_get k INPUT_MAP = Some target ->
     dict_get target acc = None) ->
  dict_len (fold_left remap_step items acc)
  = dict_len acc + List.length (known_items items).
Proof.
  unfold dict_wf. revert acc.
  induction items as [|[k0 v0] r IH]; intros acc Hnd Hfresh;
    cbn [fold_left known_items filter]; [simpl; lia|].
  inversion Hnd as [|? ? Hnotin Hnd']; subst.
  unfold remap_step at 2. cbn [fst]. unfold dict_mem.
  destruct (dict_get k0 INPUT_MAP) as [t0|] eqn:E0.
  - rewrite IH; trivial.
    + rewrite dict_len_set_fresh
        by (apply (Hfresh k0 v0); [now left | trivial]).
      unfold known_items, dict_mem. cbn [List.length]. lia.
    + intros k v target Hin Hk.
      rewrite dict_get_set_other.
      * apply (Hfresh k v); [now right | trivial].
      * intros ->. apply Hnotin.
        rewrite (INPUT_MAP_injective _ _ E0 Hk).
        change k with (fst (k, v)). now apply in_map.
  - rewrite IH; trivial.
    intros k v target Hin Hk. apply (Hfresh k v); [now right | trivial].
Qed.

(** X13.  A remapped frame has exactly as many entries as the input has
    keys of [INPUT_MAP]: nothing is merged and nothing is invented. *)
Theorem remapped_data_size :
  forall items : dict json,
    dict_wf items ->
    dict_len (remapped_data items) = List.length (known_items items) /\
    dict_len (remapped_data items) <= dict_len items.
Proof.
  intros items Hwf.
  assert (Hlen : dict_len (remapped_data items)
                 = List.length (known_items items)).
  { unfold remapped_data. rewrite remap_fold_len; trivial. }
  split; [assumption|].
  rewrite Hlen. unfold known_items, dict_len. apply filter_length_le.
Qed.

Lemma remapped_data_size_witness :
  dict_len (remapped_data [("A", JBool true); ("UNKNOWN", JInt 1);
                           ("ANALOG_LEFT_X", JFloat 5 (-1))]) = 2.
Proof.
  refine (proj1 (@remapped_data_size
                   [("A", JBool true); ("UNKNOWN", JInt 1);
                    ("ANALOG_LEFT_X", JFloat 5 (-1))] _)).
  unfold dict_wf. simpl. repeat (constructor; [not_among|]). constructor.
Defined.

(** ** The input sink *)

Lemma not_a_target_absent items name :
  ~ In name (dict_values INPUT_MAP) ->
  dict_get name (remapped_data items) = None.
Proof.
  intros Hnot.
  destruct (dict_get name (remapped_data items)) as [v|] eqn:Hget;
    [|reflexivity].
  destruct Hnot. now apply (remapped_keys_are_targets _ _ Hget).
Qed.

(** The run of the sink on a remapped frame. *)
Lemma sink_on_remapped env player_id items w :
  send_command_to_dolphin env player_id (remapped_data items) w
  = (Ok tt, extend w (sink_reaction env (remapped_data items))).
Proof.
  assert (Hanalog : dict_mem "ANALOG" (remapped_data items) = false).
  { unfold dict_mem. rewrite not_a_target_absent; [reflexivity|].
    unfold INPUT_MAP. not_among. }
  assert (Htype : dict_get "type" (remapped_data items) = None).
  { apply not_a_target_absent. unfold INPUT_MAP. not_among. }
  unfold send_command_to_dolphin, sink_reaction.
  destruct (remapped_data items) as [|entry rest].
  - unfold ret. now rewrite extend_nil.
  - unfold try_except.
    destruct (String.eqb (os_name env) "posix").
    + rewrite Hanalog. unfold bind, lift, Py.dict_getitem. rewrite Htype.
      cbn [is_Exception exn_cls]. unfold error. now rewrite emit_extend.
    + destruct (String.eqb (os_name env) "nt");
        unfold log; now rewrite emit_extend.
Qed.

(** X14.  Whatever the input mapping, the sink returns normally on its
    remapped frame and never reaches [xdotool]: an empty frame does nothing;
    on POSIX a frame with entries ends in the logged [KeyError] of
    [command['type']]; on Windows and elsewhere a line is logged.  No
    subprocess is run and nothing is sent. *)
Theorem sink_never_delivers_remapped_input :
  forall (env : Env) (player_id : string) (items : list (string * json))
         (w : World),
    send_command_to_dolphin env player_id (remapped_data items) w
    = (Ok tt, extend w (sink_reaction env (remapped_data items))) /\
    runs (trace (snd (send_command_to_dolphin env player_id
                        (remapped_data items) w)))
    = runs (trace w) /\
    sends (trace (snd (send_command_to_dolphin env player_id
                         (remapped_data items) w)))
    = sends (trace w).
Proof.
  intros env player_id items w. rewrite sink_on_remapped.
  split; [reflexivity|]. cbn [snd extend trace].
  rewrite runs_app, sends_app. unfold sink_reaction.
  destruct (remapped_data items); simpl; [now rewrite !app_nil_r|].
  destruct (String.eqb (os_name env) "posix");
    [|destruct (String.eqb (os_name env) "nt")];
    simpl; now rewrite !app_nil_r.
Qed.

(** ** Controller input frames *)

(** X15.  A controller-input object whose ["input"] is an object never
    raises, never answers the client and changes neither global: the
    handler logs the receipt, then whatever the sink logs for the remapped
    frame, and goes on with the next frame. *)
Theorem controller_input_frame :
  forall (env : Env) (ws : websocket) (client_id : string)
         (d items : dict json) (rest : list arrival) (ending : option exn)
         (w : World),
    is_controller_input d = true ->
    dict_get "input" d = Some (JDict items) ->
    let evs := EvLog INFO (LogReceived ws client_id (JDict d))
               :: sink_reaction env (remapped_data items) in
    on_message env ws client_id (Document (JDict d)) w
    = (Ok tt, extend w evs) /\
    message_loop ws client_id (Frame env (Document (JDict d)) :: rest)
      ending w
    = message_loop ws client_id rest ending (extend w evs) /\
    sends evs = [] /\ runs evs = [].
Proof.
  intros env ws client_id d items rest ending w Hin Hinput evs.
  assert (Hstep : on_message env ws client_id (Document (JDict d)) w
                  = (Ok tt, extend w evs)).
  { unfold on_message, try_except.
    rewrite (dispatch_controller_input _ _ _ _ _ Hin).
    unfold bind at 1, lift at 1, Py.dict_getitem. rewrite Hinput.
    unfold bind at 1, lift at 1, Py.items, dict_items.
    rewrite sink_on_remapped, extend_extend. reflexivity. }
  split; [assumption|]. split; [|split].
  - cbn [message_loop]. unfold bind at 1. now rewrite Hstep.
  - unfold evs, sink_reaction. simpl.
    destruct (remapped_data items); [reflexivity|].
    destruct (String.eqb (os_name env) "posix");
      [|destruct (String.eqb (os_name env) "nt")]; reflexivity.
  - unfold evs, sink_reaction. simpl.
    destruct (remapped_data items); [reflexivity|].
    destruct (String.eqb (os_name env) "posix");
      [|destruct (String.eqb (os_name env) "nt")]; reflexivity.
Qed.

Lemma controller_input_frame_witness :
  on_message quiet_env 1 "u-1"
    (Document (JDict [("type", JStr "controller_input");
                      ("input", JDict [("A", JBool true)])]))
    two_sessions
  = (Ok tt,
     extend two_sessions
       [EvLog INFO
          (LogReceived 1 "u-1"
             (JDict [("type", JStr "controller_input");
                     ("input", JDict [("A", JBool true)])]));
        EvLog ERROR (LogSendCommandFailed (Exn KeyError "type"))]).
Proof.
  apply (proj1 (@controller_input_frame quiet_env 1 "u-1"
                  [("type", JStr "controller_input");
                   ("input", JDict [("A", JBool true)])]
                  [("A", JBool true)] [] None two_sessions
                  eq_refl eq_refl)).
Defined.

(** ** Frames that end the handler, and frames it ignores *)

Ltac enter_dispatch :=
  unfold on_message, try_except, dispatch;
  unfold bind at 1, lift at 1, json_loads;
  unfold bind at 1, DEBUG_MODE, log at 1; rewrite emit_extend;
  unfold bind at 1, lift at 1, Py.contains.

Lemma fatal_frame_raises env ws client_id m e w :
  fatal_error m = Some e ->
  on_message env ws client_id m w
  = (Raise e, extend w (receipt ws client_id m)).
Proof.
  intros Hfatal.
  destruct m as [raw | raw | data]; [discriminate Hfatal | |].
  - injection Hfatal as <-. cbn [receipt]. now rewrite extend_nil.
  - destruct data as [ | b | n | mant ex | s | l | d]; cbn [receipt].
    + injection Hfatal as <-. reflexivity.
    + injection Hfatal as <-. reflexivity.
    + injection Hfatal as <-. reflexivity.
    + injection Hfatal as <-. reflexivity.
    + cbn [fatal_error] in Hfatal. enter_dispatch.
      destruct (PyStr.contains "type" s).
      * injection Hfatal as <-. reflexivity.
      * cbn [orb] in Hfatal.
        unfold bind at 1, ret at 1, bind at 1, lift at 1.
        destruct (PyStr.contains "command" s); [|discriminate Hfatal].
        injection Hfatal as <-. reflexivity.
    + cbn [fatal_error] in Hfatal. enter_dispatch.
      destruct (existsb (fun x => Py.eq_str x "type") l).
      * injection Hfatal as <-. reflexivity.
      * cbn [orb] in Hfatal.
        unfold bind at 1, ret at 1, bind at 1, lift at 1.
        destruct (existsb (fun x => Py.eq_str x "command") l);
          [|discriminate Hfatal].
        injection Hfatal as <-. reflexivity.
    + cbn [fatal_error] in Hfatal.
      destruct (is_controller_input d) eqn:Hin; [|discriminate Hfatal].
      unfold on_message, try_except.
      rewrite (dispatch_controller_input _ _ _ _ _ Hin).
      unfold bind at 1, lift at 1, Py.dict_getitem.
      destruct (dict_get "input" d) as [v|]; [|discriminate Hfatal].
      destruct v; try discriminate Hfatal;
        injection Hfatal as <-; reflexivity.
Qed.

(** X16.  The frames that end the handler: bytes that are not UTF-8, a
    document that is [null], a boolean or a number, a string or an array
    holding the word ["type"] or ["command"], and a controller input whose
    ["input"] is not an object.  The exception is none the loop catches:
    it leaves [on_message], and the frames behind it are never handled. *)
Theorem fatal_frame_ends_loop :
  forall (env : Env) (ws : websocket) (client_id : string) (m : message)
         (e : exn) (rest : list arrival) (ending : option exn) (w : World),
    fatal_error m = Some e ->
    on_message env ws client_id m w
    = (Raise e, extend w (receipt ws client_id m)) /\
    message_loop ws client_id (Frame env m :: rest) ending w
    = (Raise e, extend w (receipt ws client_id m)) /\
    exn_cls e <> JSONDecodeError /\ exn_cls e <> KeyError /\
    exn_cls e <> ConnectionClosed.
Proof.
  intros env ws client_id m e rest ending w Hfatal.
  pose proof (fatal_frame_raises env ws client_id m w Hfatal) as Hstep.
  split; [assumption|]. split.
  - cbn [message_loop]. unfold bind at 1. now rewrite Hstep.
  - destruct m as [raw | raw | data]; [discriminate Hfatal | |].
    + injection Hfatal as <-. repeat split; discriminate.
    + destruct data as [ | b | n | mant ex | s | l | d];
        cbn [fatal_error] in Hfatal;
        repeat match type of Hfatal with
               | context [if ?c then _ else _] => destruct c
               | context [match ?x with _ => _ end] => destruct x
               end;
        try discriminate Hfatal;
        injection Hfatal as <-; repeat split; discriminate.
Qed.

Lemma fatal_frame_ends_loop_witness :
  message_loop 1 "u-1"
    [Frame quiet_env (Document JNull);
     Frame quiet_env (Document (JDict [("command", JStr "start_dolphin")]))]
    None two_sessions
  = (Raise (Exn TypeError "argument is not iterable"),
     extend two_sessions [EvLog INFO (LogReceived 1 "u-1" JNull)]).
Proof.
  apply (@fatal_frame_ends_loop quiet_env 1 "u-1" (Document JNull)
           (Exn TypeError "argument is not iterable")
           [Frame quiet_env
              (Document (JDict [("command", JStr "start_dolphin")]))]
           None two_sessions eq_refl).
Defined.



(** ** The registry across frames and handler runs *)

Lemma stop_dolphin_same_clients env :
  respects same_clients (stop_dolphin env).
Proof. apply respects_stop_dolphin; eauto with frame. Qed.

(** X18.  Only the two ends of [handle_client] write the registry: no
    frame, whatever it holds and whatever the surroundings answer, and
    neither [start_dolphin] nor [stop_dolphin] changes which sessions are
    registered. *)
Theorem frames_never_touch_registry :
  forall (env : Env) (ws : websocket) (client_id : string) (m : message)
         (w : World),
    connected_clients (snd (on_message env ws client_id m w))
    = connected_clients w /\
    connected_clients (snd (start_dolphin env w)) = connected_clients w /\
    connected_clients (snd (stop_dolphin env w)) = connected_clients w.
Proof.
  intros env ws client_id m w. repeat split.
  - apply (on_message_same_clients env ws client_id m w).
  - apply (start_dolphin_same_clients env w).
  - apply (stop_dolphin_same_clients env w).
Qed.

Lemma dict_remove_set_fresh {V} k (v : V) d :
  dict_get k d = None -> dict_remove k (dict_set k v d) = d.
Proof.
  induction d as [|[k' v'] r IH]; simpl.
  - now rewrite String.eqb_refl.
  - destruct (String.eqb k k') eqn:E; [discriminate|].
    intros H. simpl. rewrite E. now rewrite IH.
Qed.

Lemma dict_values_set_fresh {V} k (v : V) d :
  dict_get k d = None -> dict_values (dict_set k v d) = dict_values d ++ [v].
Proof.
  unfold dict_values.
  induction d as [|[k' v'] r IH]; simpl; [reflexivity|].
  destruct (String.eqb k k'); [discriminate|].
  intros H. simpl. now rewrite IH.
Qed.

Lemma message_loop_same_clients ws client_id inbox ending :
  frames_only inbox = true ->
  respects same_clients (message_loop ws client_id inbox ending).
Proof.
  induction inbox as [|[env m | ops] rest IH]; intros Hframes;
    cbn [message_loop].
  - destruct ending; intros w; reflexivity.
  - apply respects_bind; [apply same_clients_trans | |].
    + apply on_message_same_clients.
    + intros _. now apply IH.
  - discriminate Hframes.
Qed.

(** X19.  A whole run of the handler leaves the registry exactly as it
    found it (same sessions, same order) when the connection is admitted
    under an identity not in use and no other connection comes or goes
    meanwhile, however the run ends. *)
Theorem handle_client_restores_registry :
  forall (env : Env) (ws : websocket) (inbox : list arrival)
         (ending : option exn) (w : World),
    dict_len (connected_clients w) < MAX_CLIENTS ->
    dict_get (uuid4 env) (connected_clients w) = None ->
    frames_only inbox = true ->
    connected_clients (snd (handle_client env ws inbox ending w))
    = connected_clients w.
Proof.
  intros env ws inbox ending w Hroom Hfresh Hframes.
  unfold handle_client, bind at 1, get_clients at 1.
  rewrite (register_accepts (uuid4 env) ws _ Hroom).
  unfold bind at 1, set_clients at 1, try_finally.
  match goal with |- context [try_except ?b ?h ?w0] =>
    assert (Hbody : same_clients w0 (snd (try_except b h w0)));
    [| destruct (try_except b h w0) as [r w1] ]
  end.
  - apply (@respects_try_except same_clients same_clients_trans).
    + unfold log.
      apply respects_bind; [apply same_clients_trans | |].
      * apply same_clients_emit.
      * intros _. apply respects_bind; [apply same_clients_trans | |].
        -- apply respects_send; eauto with frame.
        -- intros _. now apply message_loop_same_clients.
    + intros e k. destruct (exn_cls e); intros Hk; try discriminate Hk.
      injection Hk as <-. apply same_clients_emit.
  - unfold same_clients in Hbody. cbn [snd connected_clients] in Hbody.
    unfold bind, get_clients, lift, set_clients.
    rewrite deregister_eq, Hbody.
    destruct r; cbn [snd connected_clients];
      now apply dict_remove_set_fresh.
Qed.

Lemma handle_client_restores_registry_witness :
  connected_clients
    (snd (handle_client quiet_env 3
            [Frame quiet_env (Document (JDict [("command", JStr "status")]));
             Frame quiet_env (Document (JInt 5))]
            None two_sessions))
  = [("u-1", 1); ("u-2", 2)].
Proof.
  apply (@handle_client_restores_registry quiet_env 3
           [Frame quiet_env (Document (JDict [("command", JStr "status")]));
            Frame quiet_env (Document (JInt 5))]
           None two_sessions).
  - vm_compute. lia.
  - reflexivity.
  - reflexivity.
Defined.

(** X20.  A refused connection, in full: the refusal is logged and sent,
    then the socket is closed and the outcome of [close] is the outcome of
    the handler; when the refusal cannot be sent the exception leaves the
    handler before [close] is called.  No frame is read, no welcome is
    sent, and neither global is written. *)
Theorem refused_connection_run :
  forall (env : Env) (ws : websocket) (inbox : list arrival)
         (ending : option exn) (w : World),
    MAX_CLIENTS <= dict_len (connected_clients w) ->
    handle_client env ws inbox ending w
    = match ws_send env ws with
      | Ok _ =>
          (ws_close env ws,
           extend w [EvLog ERROR LogRefused;
                     EvSend ws (error_payload "Too many clients") true;
                     EvClose ws])
      | Raise e =>
          (Raise e,
           extend w [EvLog ERROR LogRefused;
                     EvSend ws (error_payload "Too many clients") false])
      end.
Proof.
  intros env ws inbox ending w Hfull.
  unfold handle_client, bind at 1, get_clients at 1.
  rewrite (register_refuses (uuid4 env) ws _ Hfull).
  unfold bind at 1, error. rewrite emit_extend.
  unfold bind at 1, send.
  destruct (ws_send env ws) as [[]|e].
  - rewrite emit_extend, extend_extend.
    unfold bind, lift. rewrite emit_extend, extend_extend. reflexivity.
  - unfold bind, raise. now rewrite emit_extend, extend_extend.
Qed.

Lemma refused_connection_run_witness :
  let full := {| connected_clients :=
                   [("u-1", 1); ("u-2", 2); ("u-3", 3); ("u-4", 4)];
                 dolphin_process := None;
                 trace := [] |} in
  handle_client quiet_env 5
    [Frame quiet_env (Document (JDict [("command", JStr "start_dolphin")]))]
    None full
  = (Ok tt,
     extend full [EvLog ERROR LogRefused;
                  EvSend 5 (error_payload "Too many clients") true;
                  EvClose 5]).
Proof.
  intros full.
  apply (@refused_connection_run quiet_env 5
           [Frame quiet_env
              (Document (JDict [("command", JStr "start_dolphin")]))]
           None full).
  vm_compute. lia.
Defined.

(** ** The welcome *)

(** The run of an admitted handler whose welcome cannot be sent. *)
Lemma failed_welcome_run :
  forall (env : Env) (ws : websocket) (inbox : list arrival)
         (ending : option exn) (w : World) (e : exn),
    dict_len (connected_clients w) < MAX_CLIENTS ->
    ws_send env ws = Raise e ->
    let client_id := uuid4 env in
    let closed := match exn_cls e with
                  | ConnectionClosed => true
                  | _ => false
                  end in
    handle_client env ws inbox ending w
    = (if closed then Ok tt else Raise e,
       {| connected_clients :=
            dict_remove client_id
              (dict_set client_id ws (connected_clients w));
          dolphin_process := dolphin_process w;
          trace := trace w ++
                   [EvLog INFO (LogConnected ws client_id);
                    EvSend ws (welcome_payload client_id) false] ++
                   (if closed
                    then [EvLog INFO (LogDisconnected ws client_id)]
                    else []) |}).
Proof.
  intros env ws inbox ending w e Hroom Hsend client_id closed.
  unfold handle_client, bind at 1, get_clients at 1.
  rewrite (register_accepts (uuid4 env) ws _ Hroom).
  unfold bind at 1, set_clients at 1, try_finally, try_except.
  unfold bind at 1, log at 1. rewrite emit_extend.
  unfold bind at 1, send. rewrite Hsend.
  unfold bind at 1, raise. rewrite emit_extend, extend_extend.
  unfold closed, client_id.
  destruct (exn_cls e); unfold log; rewrite ?emit_extend;
    unfold bind, get_clients, lift, set_clients;
    rewrite deregister_eq; unfold extend; simpl;
    rewrite <- ?app_assoc; simpl; rewrite ?app_nil_r; reflexivity.
Qed.

(** X21.  When the welcome cannot be sent, no frame is handled: on
    [ConnectionClosed] the handler logs the disconnection and returns, on
    any other exception it lets it through; either way the session is
    removed again and the process handle is untouched. *)
Theorem failed_welcome_skips_loop :
  forall (env : Env) (ws : websocket) (inbox : list arrival)
         (ending : option exn) (w : World) (e : exn),
    dict_len (connected_clients w) < MAX_CLIENTS ->
    ws_send env ws = Raise e ->
    let client_id := uuid4 env in
    let closed := match exn_cls e with
                  | ConnectionClosed => true
                  | _ => false
                  end in
    handle_client env ws inbox ending w
    = (if closed then Ok tt else Raise e,
       {| connected_clients :=
            dict_remove client_id
              (dict_set client_id ws (connected_clients w));
          dolphin_process := dolphin_process w;
          trace := trace w ++
                   [EvLog INFO (LogConnected ws client_id);
                    EvSend ws (welcome_payload client_id) false] ++
                   (if closed
                    then [EvLog INFO (LogDisconnected ws client_id)]
                    else []) |}).
Proof.
  intros env ws inbox ending w e Hroom Hsend.
  now apply failed_welcome_run.
Qed.

Lemma failed_welcome_skips_loop_witness :
  handle_client (with_closed 3 quiet_env) 3
    [Frame quiet_env (Document (JDict [("command", JStr "start_dolphin")]))]
    None two_sessions
  = (Ok tt,
     extend two_sessions
       [EvLog INFO (LogConnected 3 "u-9");
        EvSend 3 (welcome_payload "u-9") false;
        EvLog INFO (LogDisconnected 3 "u-9")]).
Proof.
  rewrite (@failed_welcome_skips_loop (with_closed 3 quiet_env) 3
             [Frame quiet_env
                (Document (JDict [("command", JStr "start_dolphin")]))]
             None two_sessions
             (Exn ConnectionClosed "no close frame received or sent")).
  - reflexivity.
  - vm_compute. lia.
  - reflexivity.
Defined.

Lemma grows_set_clients cs : respects grows (set_clients cs).
Proof. intros w. exists []. simpl. now rewrite app_nil_r. Qed.

Lemma message_loop_grows ws client_id inbox ending :
  respects grows (message_loop ws client_id inbox ending).
Proof.
  induction inbox as [|[env m | ops] rest IH]; cbn [message_loop].
  - destruct ending; intros w; apply grows_refl.
  - apply respects_bind; [apply grows_trans | |].
    + apply respects_on_message; eauto with frame.
    + intros _. apply IH.
  - apply respects_bind; [apply grows_trans | |].
    + apply respects_bind; [apply grows_trans | |].
      * intros w. apply grows_refl.
      * intros cs. apply grows_set_clients.
    + intros _. apply IH.
Qed.

Lemma finally_deregister_trace {A} (m : M A) client_id w :
  trace (snd (try_finally m
                (cs <- get_clients ;;
                 cs'' <- lift (deregister client_id cs) ;;
                 set_clients cs'') w))
  = trace (snd (m w)).
Proof.
  unfold try_finally. destruct (m w) as [r w1].
  unfold bind, get_clients, lift, set_clients. rewrite deregister_eq.
  destruct r; reflexivity.
Qed.

(** X22.  An admitted connection is greeted before anything else: the
    first thing the handler sends, whatever follows, is the welcome on its
    own socket, carrying the identity under which the session was
    registered. *)
Theorem welcome_is_first_send :
  forall (env : Env) (ws : websocket) (inbox : list arrival)
         (ending : option exn) (w : World),
    dict_len (connected_clients w) < MAX_CLIENTS ->
    exists later,
      sends (trace (snd (handle_client env ws inbox ending w)))
      = sends (trace w) ++
        (ws, welcome_payload (uuid4 env), delivered env ws) :: later.
Proof.
  intros env ws inbox ending w Hroom.
  assert (Htrace : exists evs,
            trace (snd (handle_client env ws inbox ending w))
            = trace w ++
              EvLog INFO (LogConnected ws (uuid4 env))
              :: EvSend ws (welcome_payload (uuid4 env)) (delivered env ws)
              :: evs).
  { unfold delivered. destruct (ws_send env ws) as [[]|e] eqn:Hsend.
    - unfold handle_client, bind at 1, get_clients at 1.
      rewrite (register_accepts (uuid4 env) ws _ Hroom).
      unfold bind at 1, set_clients at 1.
      rewrite finally_deregister_trace.
      match goal with |- context [try_except _ ?h ?w0] =>
        set (handler := h); set (start := w0) end.
      assert (Hbody :
        try_except
          (log (LogConnected ws (uuid4 env)) ;;
           send env ws (welcome_payload (uuid4 env)) ;;
           message_loop ws (uuid4 env) inbox ending) handler start
        = try_except (message_loop ws (uuid4 env) inbox ending) handler
            (extend start
               [EvLog INFO (LogConnected ws (uuid4 env));
                EvSend ws (welcome_payload (uuid4 env)) true])).
      { unfold try_except, bind at 1, log at 1. rewrite emit_extend.
        unfold bind at 1, send. rewrite Hsend.
        now rewrite emit_extend, extend_extend. }
      rewrite Hbody.
      assert (Hgrows : respects grows
                (try_except (message_loop ws (uuid4 env) inbox ending)
                   handler)).
      { apply (@respects_try_except grows grows_trans).
        - apply message_loop_grows.
        - intros e k. unfold handler.
          destruct (exn_cls e); intros Hk; try discriminate Hk.
          injection Hk as <-. apply grows_emit. }
      destruct (Hgrows (extend start
                  [EvLog INFO (LogConnected ws (uuid4 env));
                   EvSend ws (welcome_payload (uuid4 env)) true]))
        as [evs Hevs].
      exists evs. rewrite Hevs. unfold start. simpl.
      now rewrite <- app_assoc.
    - rewrite (failed_welcome_run env ws inbox ending w Hroom Hsend).
      cbn [snd trace]. eexists. simpl. reflexivity. }
  destruct Htrace as [evs Hevs]. exists (sends evs).
  rewrite Hevs, sends_app. reflexivity.
Qed.

Lemma welcome_is_first_send_witness :
  exists later,
    sends (trace (snd (handle_client quiet_env 3
                         [Frame quiet_env
                            (Document (JDict [("command", JStr "status")]))]
                         None two_sessions)))
    = (3, welcome_payload "u-9", true) :: later.
Proof.
  apply (@welcome_is_first_send quiet_env 3
           [Frame quiet_env (Document (JDict [("command", JStr "status")]))]
           None two_sessions).
  vm_compute. lia.
Defined.

(** ** Sessions and their keys *)

(** X23.  Admission and removal touch one key only: the entries of the
    other sessions are as before.  A session admitted under an identity not
    in use is appended, so notifications reach the sessions in the order in
    which they connected, and removing it again gives back the registry as
    it was. *)
Theorem registry_operations_are_local :
  forall (cs : dict websocket) (client_id : string) (ws : websocket),
    (forall other cs',
       other <> client_id ->
       register client_id ws cs = Some cs' ->
       dict_get other cs' = dict_get other cs) /\
    (forall other cs',
       other <> client_id ->
       deregister client_id cs = Ok cs' ->
       dict_get other cs' = dict_get other cs) /\
    (forall cs',
       dict_get client_id cs = None ->
       register client_id ws cs = Some cs' ->
       dict_values cs' = dict_values cs ++ [ws] /\
       deregister client_id cs' = Ok cs).
Proof.
  intros cs client_id ws. split; [|split].
  - intros other cs' Hne. unfold register.
    destruct (MAX_CLIENTS <=? dict_len cs)%nat; [discriminate|].
    intros [= <-]. now apply dict_get_set_other.
  - intros other cs' Hne. rewrite deregister_eq. intros [= <-].
    now apply dict_get_remove_other.
  - intros cs' Hfresh. unfold register.
    destruct (MAX_CLIENTS <=? dict_len cs)%nat; [discriminate|].
    intros [= <-]. split.
    + now apply dict_values_set_fresh.
    + rewrite deregister_eq. f_equal. now apply dict_remove_set_fresh.
Qed.

Lemma registry_operations_are_local_witness :
  dict_values (dict_set "u-9" 3 [("u-1", 1); ("u-2", 2)]) = [1; 2; 3] /\
  deregister "u-9" (dict_set "u-9" 3 [("u-1", 1); ("u-2", 2)])
  = Ok [("u-1", 1); ("u-2", 2)].
Proof.
  destruct (registry_operations_are_local [("u-1", 1); ("u-2", 2)] "u-9" 3)
    as (_ & _ & H).
  apply (H (dict_set "u-9" 3 [("u-1", 1); ("u-2", 2)])); reflexivity.
Defined.

(** ** A broken recipient and the requester *)

(** X24.  A start command that finds the executable missing notifies the
    sessions from the loop of the requester.  When the channel of some
    session raises [ConnectionClosed] there, the exception leaves the
    receive loop of the requester, whose own socket may be sound: the
    sessions after the broken one are not notified and the frames the
    requester still had are never handled. *)
Theorem broken_recipient_ends_requesters_loop :
  forall (env : Env) (ws : websocket) (client_id : string) (d : dict json)
         (rest : list arrival) (ending : option exn) (w : World)
         (before after : list websocket) (c : websocket) (e0 e : exn),
    is_controller_input d = false ->
    dict_get "command" d = Some (JStr "start_dolphin") ->
    dolphin_process w = None ->
    fst (scan env w) = Ok false ->
    subprocess_Popen env [DOLPHIN_PATH] = Raise e0 ->
    exn_cls e0 = FileNotFoundError ->
    dict_values (connected_clients w) = before ++ c :: after ->
    (forall x, In x before -> ws_send env x = Ok tt) ->
    ws_send env c = Raise e ->
    exn_cls e = ConnectionClosed ->
    message_loop ws client_id (Frame env (Document (JDict d)) :: rest)
      ending w
    = (Raise e,
       extend w
         ([EvLog INFO (LogReceived ws client_id (JDict d));
           EvRun (scan_argv env);
           EvLog INFO (LogStarting DOLPHIN_PATH); EvPopen [DOLPHIN_PATH];
           EvLog ERROR (LogNotFound DOLPHIN_PATH)] ++
          deliveries not_found_notice before ++
          [EvSend c not_found_notice false])).
Proof.
  intros env ws client_id d rest ending w before after c e0 e
         Hin Hcmd Hp Hscan Hpopen Hcls0 Hsplit Hok Hfail Hcls.
  cbn [message_loop]. unfold bind at 1, on_message, try_except.
  rewrite (dispatch_command _ _ _ _ _ Hin), Hcmd. cbn [Py.eq_str].
  change (String.eqb "start_dolphin" "start_dolphin") with true. cbv iota.
  set (w0 := extend w _).
  assert (Hp0 : dolphin_process w0 = None) by exact Hp.
  assert (Hscan0 : fst (scan env w0) = Ok false)
    by (now rewrite (scan_result env w0 w)).
  rewrite (start_dolphin_not_found _ _
             (is_dolphin_running_scanned _ _ Hp0 Hscan0) Hpopen Hcls0).
  rewrite send_to_all_eq. unfold w0. cbn [extend connected_clients].
  rewrite Hsplit.
  rewrite (@for_each_send_stops env not_found_notice before c after e _
             Hok Hfail).
  rewrite Hcls. rewrite !extend_extend. reflexivity.
Qed.

Lemma broken_recipient_ends_requesters_loop_witness :
  let env := with_closed 1 no_executable_env in
  fst (message_loop 2 "u-2"
         [Frame env (Document (JDict [("command", JStr "start_dolphin")]));
          Frame env (Document (JDict [("command", JStr "status")]))]
         None two_sessions)
  = Raise (Exn ConnectionClosed "no close frame received or sent").
Proof.
  intros env.
  rewrite (@broken_recipient_ends_requesters_loop env 2 "u-2"
             [("command", JStr "start_dolphin")]
             [Frame env (Document (JDict [("command", JStr "status")]))]
             None two_sessions [] [2] 1
             (Exn FileNotFoundError "No such file or directory")
             (Exn ConnectionClosed "no close frame received or sent")
             eq_refl eq_refl eq_refl eq_refl eq_refl eq_refl eq_refl
             (fun x (H : In x []) => match H with end) eq_refl eq_refl).
  reflexivity.
Defined.
